(** * cffdrs_ts: the rate-of-spread engine and the slope adjustment

    A shallow embedding of the fire-behaviour prediction code of the
    repository (buildup effect, crown fraction burned, the C6 plantation
    model, the batched rate-of-spread engine, the initial spread index and the
    slope/wind adjustment) together with the properties stated about it.

    Numbers.  A TypeScript [number] is modelled by a real number: rounding,
    overflow, NaN and the infinities are outside the model.  Where the source
    would produce NaN or an infinity (a division by zero, the logarithm of a
    non-positive number, a negative base raised to a fractional power) the
    model yields the value the Standard Library gives ([x / 0 = 0],
    [ln x = 0] for [x <= 0]) or [0]; the statements below are statements
    about the computation over the reals, and the inputs their witnesses and
    counterexamples use keep the source inside the reals.  Two properties
    depend on the rounding: the crown fraction burned reaches [1], and the
    floor of the spread rate fires at a tiny positive initial spread index.
    For them the expressions of the source are given a second time on
    binary64 numbers ([Binary64]), and the statements about the reals are
    the ones that do not depend on the rounding.

    Arrays.  A [number[]] or [string[]] is a [list]; [X[i]] is [nth i X _];
    [X.map((x, i) => ...)] is [imap]; [Array(n).fill(v)] is [repeat v n]. *)

From Stdlib Require Import Reals Lra Lia List String Bool Arith.
From Stdlib Require Floats.
Import ListNotations.

Open Scope string_scope.
Open Scope R_scope.

(* ================================================================= *)
(** ** JavaScript primitives *)

Module JS.

(** Comparisons of two numbers, as booleans. *)
Definition gtb (x y : R) : bool := if Rlt_dec y x then true else false.
Definition ltb (x y : R) : bool := if Rlt_dec x y then true else false.
Definition geb (x y : R) : bool := if Rle_dec y x then true else false.
Definition leb (x y : R) : bool := if Rle_dec x y then true else false.

(** [Math.pow].  The exponent [0] gives [1] for every base; a positive base
    gives the real power; base [0] with a positive exponent gives [0]; a
    negative base with an integral exponent gives the signed integer power.
    The two remaining cases ([0] to a negative power, which is [Infinity],
    and a negative base to a fractional power, which is [NaN]) have no real
    value and are given [0]. *)
Definition Math_pow (x y : R) : R :=
  if Req_dec_T y 0 then 1
  else if Rlt_dec 0 x then Rpower x y
  else if Req_dec_T x 0 then 0
  else if Req_dec_T y (IZR (Int_part y)) then powerRZ x (Int_part y)
  else 0.

(** [Array.prototype.includes] on an array of strings. *)
Definition includes (l : list string) (s : string) : bool :=
  existsb (String.eqb s) l.

(** [X.map((x, i) => f x i)]: the callback receives the element and its
    index. *)
Fixpoint imap_from {A B : Type} (k : nat) (f : A -> nat -> B) (l : list A)
  : list B :=
  match l with
  | [] => []
  | x :: l' => f x k :: imap_from (S k) f l'
  end.

Definition imap {A B : Type} (f : A -> nat -> B) (l : list A) : list B :=
  imap_from 0 f l.

(** [X[i]] for an array of numbers and for an array of strings.  Out of
    range the source reads [undefined]; the model reads [0] and the empty
    string, which is no fuel type. *)
Definition at_ (l : list R) (i : nat) : R := nth i l 0.
Definition sat (l : list string) (i : nat) : string := nth i l "".

(** A string-keyed object used as a table; a missing key is [undefined]. *)
Fixpoint lookup (tbl : list (string * R)) (k : string) : option R :=
  match tbl with
  | [] => None
  | (k', v) :: tbl' => if String.eqb k k' then Some v else lookup tbl' k
  end.

(** [tbl[k]] where the key is known to be present. *)
Definition get (tbl : list (string * R)) (k : string) : R :=
  match lookup tbl k with Some v => v | None => 0 end.

End JS.

Notation "x >? y" := (JS.gtb x y) (at level 70, no associativity) : R_scope.
Notation "x <? y" := (JS.ltb x y) (at level 70, no associativity) : R_scope.
Notation "x >=? y" := (JS.geb x y) (at level 70, no associativity) : R_scope.
Notation "x <=? y" := (JS.leb x y) (at level 70, no associativity) : R_scope.

(* ================================================================= *)
(** ** Buildup effect (buildup_effect.ts) *)

(** The seventeen fuel types of the [d] arrays. *)
Definition d : list string :=
  ["C1"; "C2"; "C3"; "C4"; "C5"; "C6"; "C7";
   "D1"; "M1"; "M2"; "M3"; "M4"; "S1"; "S2"; "S3"; "O1A"; "O1B"].

Definition BUIo : list (string * R) :=
  [("C1", 72); ("C2", 64); ("C3", 62); ("C4", 66); ("C5", 56); ("C6", 62);
   ("C7", 106); ("D1", 32); ("M1", 50); ("M2", 50); ("M3", 50); ("M4", 50);
   ("S1", 38); ("S2", 63); ("S3", 31); ("O1A", 1); ("O1B", 1)].

Definition Q : list (string * R) :=
  [("C1", 0.9); ("C2", 0.7); ("C3", 0.75); ("C4", 0.8); ("C5", 0.8);
   ("C6", 0.8); ("C7", 0.85); ("D1", 0.9); ("M1", 0.8); ("M2", 0.8);
   ("M3", 0.8); ("M4", 0.8); ("S1", 0.75); ("S2", 0.75); ("S3", 0.75);
   ("O1A", 1.0); ("O1B", 1.0)].

(** Eq. 54.  [BUIo[FUELTYPE] > 0] is false when the key is missing
    ([undefined > 0]), so an unknown fuel type takes the [else] branch. *)
Definition buildupEffect (FUELTYPE : string) (BUI : R) : R :=
  match JS.lookup BUIo FUELTYPE with
  | Some buio =>
      if (BUI >? 0) && (buio >? 0)
      then exp (50 * ln (JS.get Q FUELTYPE) * (1 / BUI - 1 / buio))
      else 1
  | None => 1
  end.

Definition BEcalc (FUELTYPE : string) (BUI : R) : R :=
  buildupEffect FUELTYPE BUI.

(* ================================================================= *)
(** ** Crown fraction burned (CFBcalc.ts) *)

Definition criticalSurfaceIntensity (FMC CBH : R) : R :=
  0.001 * JS.Math_pow CBH 1.5 * JS.Math_pow (460 + 25.9 * FMC) 1.5.

Definition surfaceFireRateOfSpread (CSI SFC : R) : R :=
  CSI / (300 * SFC).

Definition crownFractionBurned (ROS RSO : R) : R :=
  if ROS >? RSO then 1 - exp (- 0.23 * (ROS - RSO)) else 0.

(* ================================================================= *)
(** ** The C6 conifer plantation model (C6calc.ts) *)

(** Eq. 62. *)
Definition intermediateSurfaceRateOfSpreadC6 (ISI : R) : R :=
  30 * JS.Math_pow (1 - exp (- 0.08 * ISI)) 3.

(** Eq. 63. *)
Definition surfaceRateOfSpreadC6 (RSI BUI : R) : R :=
  RSI * buildupEffect "C6" BUI.

(** Eqs. 59-61 and 64; [tt] and [H] of the source are computed and unused. *)
Definition crownRateOfSpreadC6 (ISI FMC : R) : R :=
  let FMEavg := 0.778 in
  let FME := JS.Math_pow (1.5 - 0.00275 * FMC) 4 / (460 + 25.9 * FMC) * 1000 in
  60 * (1 - exp (- 0.0497 * ISI)) * FME / FMEavg.

Definition crownFractionBurnedC6 (RSC RSS RSO : R) : R :=
  if (RSC >? RSS) && (RSS >? RSO) then crownFractionBurned RSS RSO else 0.

(** Eq. 65. *)
Definition rateOfSpreadC6 (RSC RSS CFB : R) : R :=
  if RSC >? RSS then RSS + CFB * (RSC - RSS) else RSS.

(* ================================================================= *)
(** ** Initial spread index (initial_spread_index.ts) *)

Definition initialSpreadIndex (ffmc ws : R) (fbpMod : bool) : R :=
  let FFMC_COEFFICIENT := 59.5 in
  (* Eq. 10 - Moisture content *)
  let fm := FFMC_COEFFICIENT * (101 - ffmc) / (59.5 + ffmc) in
  (* Eq. 24 - Wind effect, with the modification of Eq. 53a *)
  let fW := if (ws >=? 40) && fbpMod
            then 12 * (1 - exp (- 0.0818 * (ws - 28)))
            else exp (0.05039 * ws) in
  (* Eq. 25 - Fine fuel moisture *)
  let fF := 91.9 * exp (- 0.1386 * fm) * (1 + JS.Math_pow fm 5.31 / 49300000) in
  (* Eq. 26 - Spread index *)
  0.208 * fW * fF.

(* ================================================================= *)
(** ** The rate-of-spread engine (rate_of_spread.ts) *)

Record InputParams : Type := mkInputParams {
  FUELTYPE : list string;
  ISI : list R;
  BUI : list R;
  FMC : list R;
  SFC : list R;
  PC : list R;
  PDF : list R;
  CC : list R;
  CBH : list R
}.

Record ROSResult : Type := mkROSResult {
  ROS : list R;
  CFB : list R;
  CSI : list R;
  RSO : list R
}.

Module RoS.

Import JS.

Definition a : list R :=
  [90; 110; 110; 110; 30; 30; 45; 30; 0; 0; 120; 100; 75; 40; 55; 190; 250].
Definition b : list R :=
  [0.0649; 0.0282; 0.0444; 0.0293; 0.0697; 0.0800; 0.0305; 0.0232; 0; 0;
   0.0572; 0.0404; 0.0297; 0.0438; 0.0829; 0.0310; 0.0350].
Definition c0 : list R :=
  [4.5; 1.5; 3.0; 1.5; 4.0; 3.0; 2.0; 1.6; 0; 0; 1.4; 1.48; 1.3; 1.7; 3.2;
   1.4; 1.7].

(** [names = Object.fromEntries(d.map((key, i) => [key, i]))]: the position
    of a fuel type in [d]. *)
Fixpoint index_from (k : nat) (l : list string) (s : string) : option nat :=
  match l with
  | [] => None
  | x :: l' => if String.eqb s x then Some k else index_from (S k) l' s
  end.

Definition names (s : string) : option nat := index_from 0 d s.

(** [t[names[s]]]. *)
Definition coef (t : list R) (s : string) : R :=
  match names s with Some n => nth n t 0 | None => 0 end.

(** The fuel types whose curve is [a * (1 - exp(-b * ISI)) ^ c0]. *)
Definition simple : list string :=
  ["C1"; "C2"; "C3"; "C4"; "C5"; "C7"; "D1"; "S1"; "S2"; "S3"].

Definition grass : list string := ["O1A"; "O1B"].

Definition curve (s : string) (isi : R) : R :=
  coef a s * Math_pow (1 - exp (- coef b s * isi)) (coef c0 s).

Section Body.

(** The function called recursively for the blended fuel types. *)
Variable rateOfSpread : InputParams -> list R.
Variable params : InputParams.

Local Abbreviation fuel := (FUELTYPE params).
Local Abbreviation isi := (ISI params).
Local Abbreviation pc := (PC params).
Local Abbreviation pdf := (PDF params).
Local Abbreviation cc := (CC params).

(** [const NoBUI = Array(ISI.length).fill(-1)] *)
Definition NoBUI : list R := repeat (-1) (List.length (ISI params)).

(** [{ FUELTYPE: Array(ISI.length).fill(ft), ISI, BUI: NoBUI, FMC, SFC, PC,
    PDF, CC, CBH }] *)
Definition pure (ft : string) : InputParams :=
  mkInputParams (repeat ft (List.length (ISI params))) (ISI params) NoBUI
    (FMC params) (SFC params) (PC params) (PDF params) (CC params)
    (CBH params).

(** [let RSI = Array(ISI.length).fill(-1)] *)
Definition RSI_0 : list R := repeat (-1) (List.length (ISI params)).

(** The first [RSI = RSI.map((_, i) => ...)]: the simple fuel types, M1 and
    M2; [-1] is kept for the others. *)
Definition RSI_1 : list R :=
  imap (fun _ i =>
    if includes simple (sat fuel i) then curve (sat fuel i) (at_ isi i)
    else if String.eqb (sat fuel i) "M1" then
      (at_ pc i / 100) * at_ (rateOfSpread (pure "C2")) i
      + ((100 - at_ pc i) / 100) * at_ (rateOfSpread (pure "D1")) i
    else if String.eqb (sat fuel i) "M2" then
      (at_ pc i / 100) * at_ (rateOfSpread (pure "C2")) i
      + 0.2 * ((100 - at_ pc i) / 100) * at_ (rateOfSpread (pure "D1")) i
    else -1) RSI_0.

(** [const RSI_m3 = RSI.map(...)] and the following [RSI = RSI.map(...)]:
    M3, blended with D1. *)
Definition RSI_m3 : list R :=
  imap (fun rsi i =>
    if String.eqb (sat fuel i) "M3" then curve "M3" (at_ isi i) else rsi)
    RSI_1.

Definition RSI_2 : list R :=
  imap (fun rsi i =>
    if String.eqb (sat fuel i) "M3" then
      at_ pdf i / 100 * at_ RSI_m3 i
      + (1 - at_ pdf i / 100) * at_ (rateOfSpread (pure "D1")) i
    else rsi) RSI_1.

(** [const RSI_m4 = RSI.map(...)] and the following [RSI = RSI.map(...)]:
    M4, blended with D1 at one fifth. *)
Definition RSI_m4 : list R :=
  imap (fun rsi i =>
    if String.eqb (sat fuel i) "M4" then curve "M4" (at_ isi i) else rsi)
    RSI_2.

Definition RSI_3 : list R :=
  imap (fun rsi i =>
    if String.eqb (sat fuel i) "M4" then
      at_ pdf i / 100 * at_ RSI_m4 i
      + 0.2 * (1 - at_ pdf i / 100) * at_ (rateOfSpread (pure "D1")) i
    else rsi) RSI_2.

(** [const CF = RSI.map(...)]: the grass curing factor; [-99] for the other
    fuel types. *)
Definition CF : list R :=
  imap (fun _ i =>
    if includes grass (sat fuel i) then
      if at_ cc i <? 58.8 then 0.005 * (exp (0.061 * at_ cc i) - 1)
      else 0.176 + 0.02 * (at_ cc i - 58.8)
    else -99) RSI_3.

(** [RSI = RSI.map(...)]: the grass types O1A and O1B. *)
Definition RSI_4 : list R :=
  imap (fun rsi i =>
    if includes grass (sat fuel i)
    then curve (sat fuel i) (at_ isi i) * at_ CF i
    else rsi) RSI_3.

(** [const CSI = FMC.map(...)] and [const RSO = SFC.map(...)] *)
Definition CSI_v : list R :=
  imap (fun fmc i => criticalSurfaceIntensity fmc (at_ (CBH params) i))
    (FMC params).

Definition RSO_v : list R :=
  imap (fun sfc i => surfaceFireRateOfSpread (at_ CSI_v i) sfc)
    (SFC params).

(** [RSI = RSI.map(...)] for C6: the raw spread rate [RSI] once every fuel
    type has been treated. *)
Definition RSI_v : list R :=
  imap (fun rsi i =>
    if String.eqb (sat fuel i) "C6"
    then intermediateSurfaceRateOfSpreadC6 (at_ isi i) else rsi) RSI_4.

(** [const RSC = FUELTYPE.map(...)].  The source stores [NaN] for the fuel
    types other than C6; the entry is read for C6 only, and the model stores
    [0]. *)
Definition RSC_v : list R :=
  imap (fun ftype i =>
    if String.eqb ftype "C6"
    then crownRateOfSpreadC6 (at_ isi i) (at_ (FMC params) i) else 0)
    (FUELTYPE params).

(** [const RSS], [const CFB] and [const ROS], each [RSI.map(...)]. *)
Definition RSS_v : list R :=
  imap (fun rsi i =>
    if String.eqb (sat fuel i) "C6"
    then surfaceRateOfSpreadC6 (at_ RSI_v i) (at_ (BUI params) i)
    else buildupEffect (sat fuel i) (at_ (BUI params) i) * rsi) RSI_v.

Definition CFB_v : list R :=
  imap (fun _ i =>
    if String.eqb (sat fuel i) "C6"
    then crownFractionBurnedC6 (at_ RSC_v i) (at_ RSS_v i) (at_ RSO_v i)
    else crownFractionBurned (at_ RSS_v i) (at_ RSO_v i)) RSI_v.

Definition ROS_v : list R :=
  imap (fun _ i =>
    if String.eqb (sat fuel i) "C6"
    then rateOfSpreadC6 (at_ RSC_v i) (at_ RSS_v i) (at_ CFB_v i)
    else at_ RSS_v i) RSI_v.

(** [const constrainedROS = ROS.map(ros => (ros <= 0 ? 0.000001 : ros))] *)
Definition constrainedROS : list R :=
  map (fun ros => if ros <=? 0 then 0.000001 else ros) ROS_v.

(** [return { ROS: constrainedROS, CFB, CSI, RSO }] *)
Definition body : ROSResult :=
  mkROSResult constrainedROS CFB_v CSI_v RSO_v.

End Body.

(** [rateOfSpreadExtended] calls [rateOfSpread], which calls it back: the
    recursion is unrolled [n] times.  The recursive calls are made on
    batches of C2 and of D1 only, which make no further call, so two
    levels give the result: [rateOfSpreadExtended_eq] below proves the
    equation of the source, and [unroll_stable_at] that more levels change
    nothing. *)
Fixpoint unroll (n : nat) (params : InputParams) : ROSResult :=
  match n with
  | O => mkROSResult [] [] [] []
  | S k => body (fun q => ROS (unroll k q)) params
  end.

End RoS.

Definition rateOfSpreadExtended (params : InputParams) : ROSResult :=
  RoS.unroll 2 params.

Definition rateOfSpread (params : InputParams) : list R :=
  ROS (rateOfSpreadExtended params).

Definition ROScalc (params : InputParams) : list R := rateOfSpread params.

(* ================================================================= *)
(** ** Slope adjustment (slope_adjustment.ts) *)

Record SlopeAdjustmentResult : Type := mkSlopeAdjustmentResult {
  WSV : option R;
  RAZ : option R
}.

Module Slope.

Import JS.

Definition a : list (string * R) :=
  [("C1", 90); ("C2", 110); ("C3", 110); ("C4", 110); ("C5", 30);
   ("C6", 30); ("C7", 45); ("D1", 30); ("M1", 0); ("M2", 0); ("M3", 120);
   ("M4", 100); ("S1", 75); ("S2", 40); ("S3", 55); ("O1A", 190);
   ("O1B", 250)].

Definition b : list (string * R) :=
  [("C1", 0.0649); ("C2", 0.0282); ("C3", 0.0444); ("C4", 0.0293);
   ("C5", 0.0697); ("C6", 0.0800); ("C7", 0.0305); ("D1", 0.0232);
   ("M1", 0); ("M2", 0); ("M3", 0.0572); ("M4", 0.0404); ("S1", 0.0297);
   ("S2", 0.0438); ("S3", 0.0829); ("O1A", 0.0310); ("O1B", 0.0350)].

Definition c0 : list (string * R) :=
  [("C1", 4.5); ("C2", 1.5); ("C3", 3.0); ("C4", 1.5); ("C5", 4.0);
   ("C6", 3.0); ("C7", 2.0); ("D1", 1.6); ("M1", 0); ("M2", 0);
   ("M3", 1.4); ("M4", 1.48); ("S1", 1.3); ("S2", 1.7); ("S3", 3.2);
   ("O1A", 1.4); ("O1B", 1.7)].

Definition basic : list string :=
  ["C1"; "C2"; "C3"; "C4"; "C5"; "C6"; "C7"; "D1"; "S1"; "S2"; "S3"].

(** The inversion of [a * (1 - exp(-b * ISI)) ^ c0] with the clamp at
    [0.01]; [scale] is [a[fuel]], or [CF * a[fuel]] for grass. *)
Definition invert (fuel : string) (scale rsf : R) : R :=
  let expValue := 1 - Math_pow (rsf / scale) (1 / get c0 fuel) in
  if expValue >=? 0.01 then ln expValue / - get b fuel
  else ln 0.01 / - get b fuel.

(** [FUELTYPE.map(fuel => fuel === x || fuel === y ? z : fuel)] *)
Definition subst2 (x y z : string) (l : list string) : list string :=
  map (fun fuel =>
         if String.eqb fuel x || String.eqb fuel y then z else fuel) l.

Definition subst1 (x z : string) (l : list string) : list string :=
  map (fun fuel => if String.eqb fuel x then z else fuel) l.

Section Adjust.

Variables (FUELTYPE : list string)
          (FFMC BUI WS WAZ GS SAZ FMC SFC PC PDF CC CBH ISI : list R).

(** [const NoBUI = FFMC.map(() => -1)] *)
Definition NoBUI : list R := map (fun _ => -1) FFMC.

(** The slope factor, [10] from a slope of 70 percent on. *)
Definition SF : list R :=
  map (fun gs =>
         if gs >=? 70 then 10 else exp (3.533 * Math_pow (gs / 100) 1.2))
      GS.

(** The initial spread index and the spread rate with no wind, and the
    spread rate on the slope [RSF = RSZ * SF]. *)
Definition ISZ : list R :=
  map (fun ffmc => initialSpreadIndex ffmc 0 false) FFMC.

Definition RSZ : list R :=
  rateOfSpread (mkInputParams FUELTYPE ISZ NoBUI FMC SFC PC PDF CC CBH).

Definition RSF : list R := imap (fun rsz i => rsz * at_ SF i) RSZ.

Definition isBasic : list bool := map (includes basic) FUELTYPE.

(** [let ISF = new Array(FFMC.length).fill(-99)] *)
Definition ISF_0 : list R := repeat (-99) (List.length FFMC).

(** The first [ISF = ISF.map(...)]: the basic fuel types. *)
Definition ISF_1 : list R :=
  imap (fun isf i =>
    if nth i isBasic false
    then invert (sat FUELTYPE i) (get a (sat FUELTYPE i)) (at_ RSF i)
    else isf) ISF_0.

(** M1 and M2: the C2 and the D1 component are inverted and combined. *)
Definition ISF_2 : list R :=
  if includes FUELTYPE "M1" || includes FUELTYPE "M2" then
    let RSZ_C2 :=
      rateOfSpread (mkInputParams (subst2 "M1" "M2" "C2" FUELTYPE)
                      ISZ NoBUI FMC SFC PC PDF CC CBH) in
    let RSF_C2 := imap (fun rsz i => rsz * at_ SF i) RSZ_C2 in
    let RSZ_D1 :=
      rateOfSpread (mkInputParams (subst2 "M1" "M2" "D1" FUELTYPE)
                      ISZ NoBUI FMC SFC PC PDF CC CBH) in
    let RSF_D1 := imap (fun rsz i => rsz * at_ SF i) RSZ_D1 in
    imap (fun isf i =>
      if String.eqb (sat FUELTYPE i) "M1"
         || String.eqb (sat FUELTYPE i) "M2" then
        let ISF_C2 := invert "C2" (get a "C2") (at_ RSF_C2 i) in
        let ISF_D1 := invert "D1" (get a "D1") (at_ RSF_D1 i) in
        at_ PC i / 100 * ISF_C2 + (1 - at_ PC i / 100) * ISF_D1
      else isf) ISF_1
  else ISF_1.

(** Percent dead balsam fir set to 100 for M3 and M4. *)
Definition PDF100 : list R := map (fun _ => 100) ISI.

(** The block [if (FUELTYPE.includes("M3")) { ... }] and the block for M4,
    which differ by the fuel type [M] only: the component of [M] and the D1
    component are inverted and combined. *)
Definition ISF_mixed (M : string) (ISF : list R) : list R :=
  if includes FUELTYPE M then
    let RSZ_M :=
      rateOfSpread (mkInputParams (subst1 M M FUELTYPE)
                      ISZ NoBUI FMC SFC PC PDF100 CC CBH) in
    let RSF_M := imap (fun rsz i => rsz * at_ SF i) RSZ_M in
    let RSZ_D1 :=
      rateOfSpread (mkInputParams (subst1 M "D1" FUELTYPE)
                      ISZ NoBUI FMC SFC PC PDF100 CC CBH) in
    let RSF_D1 := imap (fun rsz i => rsz * at_ SF i) RSZ_D1 in
    imap (fun isf i =>
      if String.eqb (sat FUELTYPE i) M then
        let ISF_M := invert M (get a M) (at_ RSF_M i) in
        let ISF_D1 := invert "D1" (get a "D1") (at_ RSF_D1 i) in
        at_ PDF i / 100 * ISF_M + (1 - at_ PDF i / 100) * ISF_D1
      else isf) ISF
  else ISF.

Definition ISF_3 : list R := ISF_mixed "M3" ISF_2.
Definition ISF_4 : list R := ISF_mixed "M4" ISF_3.

(** [const CF = FUELTYPE.map(...)] *)
Definition CF : list R :=
  imap (fun fuel i =>
    if String.eqb fuel "O1A" || String.eqb fuel "O1B" then
      if at_ CC i <? 58.8 then 0.005 * (exp (0.061 * at_ CC i) - 1)
      else 0.176 + 0.02 * (at_ CC i - 58.8)
    else -99) FUELTYPE.

(** The last [ISF = ISF.map(...)], for grass: the slope-equivalent ISI once
    every fuel type has been treated. *)
Definition ISF : list R :=
  imap (fun isf i =>
    if String.eqb (sat FUELTYPE i) "O1A"
       || String.eqb (sat FUELTYPE i) "O1B"
    then invert (sat FUELTYPE i) (at_ CF i * get a (sat FUELTYPE i))
                (at_ RSF i)
    else isf) ISF_4.

(** [const m = FFMC.map(ffmc => 101 - ffmc)] and the fine fuel moisture
    function [fF] on it. *)
Definition m : list R := map (fun ffmc => 101 - ffmc) FFMC.

Definition fF : list R :=
  map (fun mVal =>
         91.9 * exp (- 0.1386 * mVal)
         * (1 + Math_pow mVal 5.31 / 49300000)) m.

(** The slope-equivalent wind speed. *)
Definition WSE : list R :=
  imap (fun ff i => 1 / 0.05039 * ln (at_ ISF i / (0.208 * ff))) fF.

(** The two corrections of a value above 40. *)
Definition adjustedWSE : list R :=
  imap (fun wse i =>
    if (wse >? 40) && (at_ ISF i <? 0.999 * 2.496 * at_ fF i) then
      28 - (1 / 0.0818 * ln (1 - at_ ISF i / (2.496 * at_ fF i)))
    else if (wse >? 40) && (at_ ISF i >=? 0.999 * 2.496 * at_ fF i) then
      112.45
    else wse) WSE.

(** The wind and the slope-equivalent wind added as vectors, the length of
    the sum and its azimuth. *)
Definition WSX : list R :=
  imap (fun ws i =>
    ws * sin (at_ WAZ i) + at_ adjustedWSE i * sin (at_ SAZ i)) WS.

Definition WSY : list R :=
  imap (fun ws i =>
    ws * cos (at_ WAZ i) + at_ adjustedWSE i * cos (at_ SAZ i)) WS.

Definition WSV_v : list R :=
  imap (fun wsx i => sqrt (wsx * wsx + at_ WSY i * at_ WSY i)) WSX.

Definition RAZ_v : list R :=
  imap (fun wsv i => acos (at_ WSY i / wsv)) WSV_v.

Definition adjustedRAZ : list R :=
  imap (fun wsx i => if wsx <? 0 then 2 * PI - at_ RAZ_v i
                     else at_ RAZ_v i) WSX.

(** The results.  The test for non-fuel and water is made on the whole
    [FUELTYPE] array, after [ISF] has been computed and before [m]. *)
Definition slopeAdjustment : list SlopeAdjustmentResult :=
  if includes FUELTYPE "NF" || includes FUELTYPE "WA" then
    map (fun _ => mkSlopeAdjustmentResult None None) FFMC
  else
    imap (fun _ i =>
      mkSlopeAdjustmentResult (Some (at_ WSV_v i))
                              (Some (at_ adjustedRAZ i))) FFMC.

End Adjust.

End Slope.

(** The source's signature; its [BUI] argument is not read. *)
Definition slopeAdjustment (FUELTYPE : list string)
    (FFMC BUI WS WAZ GS SAZ FMC SFC PC PDF CC CBH ISI : list R)
    : list SlopeAdjustmentResult :=
  Slope.slopeAdjustment FUELTYPE FFMC WS WAZ GS SAZ FMC SFC PC PDF CC CBH ISI.

(** What a call can throw: the [Error] raised for an invalid option and the
    [TypeError] of a property read on [undefined]. *)
Inductive Exception : Type :=
| Error (message : string)
| TypeError.

Definition validOutTypes : list string := ["RAZ"; "WAZ"; "WSV"].

(** [Slopecalc]; [output] has the default ["RAZ"] in the source.  After the
    call of [slopeAdjustment] the source evaluates [values[0][output]] and
    drops the value: on an empty [values] that reads a property of
    [undefined]. *)
Definition Slopecalc (FUELTYPE : list string)
    (FFMC BUI WS WAZ GS SAZ FMC SFC PC PDF CC CBH ISI : list R)
    (output : string) : Exception + list SlopeAdjustmentResult :=
  if negb (JS.includes validOutTypes output) then
    inl (Error ("In 'Slopecalc()', '" ++ output
                ++ "' is an invalid 'output' type."))
  else
    let values :=
      slopeAdjustment FUELTYPE FFMC BUI WS WAZ GS SAZ FMC SFC PC PDF CC CBH
        ISI in
    match values with
    | [] => inl TypeError
    | _ :: _ => inr values
    end.

(* ================================================================= *)
(** ** One observation of a batch

    The engine works on parallel arrays.  The definitions below give the
    computation it performs at one index, on the nine values found there;
    [engine_at] (further down) proves that the batched code computes exactly
    this at every index of a well-formed batch. *)

(** The nine arrays of a batch have the same length [n]. *)
Definition wf (n : nat) (p : InputParams) : Prop :=
  List.length (FUELTYPE p) = n /\ List.length (ISI p) = n /\
  List.length (BUI p) = n /\ List.length (FMC p) = n /\
  List.length (SFC p) = n /\ List.length (PC p) = n /\
  List.length (PDF p) = n /\ List.length (CC p) = n /\
  List.length (CBH p) = n.

Record Obs : Type := mkObs {
  fuel : string;
  isi : R;
  bui : R;
  fmc : R;
  sfc : R;
  pc : R;
  pdf : R;
  cc : R;
  cbh : R
}.

(** The observation at index [i] of a batch. *)
Definition obs (p : InputParams) (i : nat) : Obs :=
  mkObs (JS.sat (FUELTYPE p) i) (JS.at_ (ISI p) i) (JS.at_ (BUI p) i)
        (JS.at_ (FMC p) i) (JS.at_ (SFC p) i) (JS.at_ (PC p) i)
        (JS.at_ (PDF p) i) (JS.at_ (CC p) i) (JS.at_ (CBH p) i).

(** The observation seen by the recursive call on pure [ft] fuel: the fuel
    type replaced and the buildup index disabled. *)
Definition pure_obs (ft : string) (o : Obs) : Obs :=
  mkObs ft (isi o) (-1) (fmc o) (sfc o) (pc o) (pdf o) (cc o) (cbh o).

Definition set_isi (x : R) (o : Obs) : Obs :=
  mkObs (fuel o) x (bui o) (fmc o) (sfc o) (pc o) (pdf o) (cc o) (cbh o).

(** The floor applied to the final spread rate. *)
Definition constrain (ros : R) : R := if ros <=? 0 then 0.000001 else ros.

(** The grass curing factor. *)
Definition curing (cc : R) : R :=
  if cc <? 58.8 then 0.005 * (exp (0.061 * cc) - 1)
  else 0.176 + 0.02 * (cc - 58.8).

Module El.

Import JS.

Section One.

(** [rec ft]: what the recursive call on pure [ft] fuel returns at this
    index. *)
Variable rec : string -> R.
Variable o : Obs.

Definition rsi_1 : R :=
  if includes RoS.simple (fuel o) then RoS.curve (fuel o) (isi o)
  else if String.eqb (fuel o) "M1" then
    (pc o / 100) * rec "C2" + ((100 - pc o) / 100) * rec "D1"
  else if String.eqb (fuel o) "M2" then
    (pc o / 100) * rec "C2" + 0.2 * ((100 - pc o) / 100) * rec "D1"
  else -1.

Definition rsi_2 : R :=
  if String.eqb (fuel o) "M3" then
    pdf o / 100 * RoS.curve "M3" (isi o) + (1 - pdf o / 100) * rec "D1"
  else rsi_1.

Definition rsi_3 : R :=
  if String.eqb (fuel o) "M4" then
    pdf o / 100 * RoS.curve "M4" (isi o)
    + 0.2 * (1 - pdf o / 100) * rec "D1"
  else rsi_2.

Definition rsi_4 : R :=
  if includes RoS.grass (fuel o)
  then RoS.curve (fuel o) (isi o) * curing (cc o)
  else rsi_3.

Definition rsi : R :=
  if String.eqb (fuel o) "C6"
  then intermediateSurfaceRateOfSpreadC6 (isi o) else rsi_4.

Definition csi : R := criticalSurfaceIntensity (fmc o) (cbh o).

Definition rso : R := surfaceFireRateOfSpread csi (sfc o).

Definition rsc : R :=
  if String.eqb (fuel o) "C6" then crownRateOfSpreadC6 (isi o) (fmc o)
  else 0.

Definition rss : R :=
  if String.eqb (fuel o) "C6" then surfaceRateOfSpreadC6 rsi (bui o)
  else buildupEffect (fuel o) (bui o) * rsi.

Definition cfb : R :=
  if String.eqb (fuel o) "C6" then crownFractionBurnedC6 rsc rss rso
  else crownFractionBurned rss rso.

Definition ros : R :=
  if String.eqb (fuel o) "C6" then rateOfSpreadC6 rsc rss cfb else rss.

Definition constrained : R := constrain ros.

End One.

(** The recursion of the engine at one index, unrolled as [RoS.unroll]. *)
Fixpoint unroll (n : nat) (o : Obs) : R :=
  match n with
  | O => 0
  | S k => constrained (fun ft => unroll k (pure_obs ft o)) o
  end.

End El.

(** What [rateOfSpread] returns at one observation. *)
Definition rateOfSpreadAt (o : Obs) : R := El.unroll 2 o.

(** The undamped, floored spread rate of pure [ft] fuel at the observation:
    the value the blends of M1 to M4 are built from. *)
Definition pureRateOfSpreadAt (ft : string) (o : Obs) : R :=
  El.unroll 1 (pure_obs ft o).

(** The fuel types that are not blends. *)
Definition unblended : list string :=
  ["C1"; "C2"; "C3"; "C4"; "C5"; "C6"; "C7"; "D1"; "S1"; "S2"; "S3";
   "O1A"; "O1B"].

(** The fuel types on which the engine calls itself for a blend: C2 and D1
    for M1 and M2, D1 for M3 and M4. *)
Definition components (ft : string) : list string :=
  if String.eqb ft "M1" || String.eqb ft "M2" then ["C2"; "D1"]
  else if String.eqb ft "M3" || String.eqb ft "M4" then ["D1"]
  else [].

(** The spread-rate curve [A * (1 - exp (- B * x)) ^ C] with its three shape
    parameters explicit; [RoS.curve ft] is [shape] at the parameters of [ft],
    and Eq. 62 of the C6 model is [shape 30 0.08 3]. *)
Definition shape (A B C x : R) : R :=
  A * JS.Math_pow (1 - exp (- B * x)) C.

(** The fuel types that have a curve of their own. *)
Definition curved : list string :=
  ["C1"; "C2"; "C3"; "C4"; "C5"; "C6"; "C7"; "D1"; "M3"; "M4"; "S1"; "S2";
   "S3"; "O1A"; "O1B"].

(** Eq. 25 of the initial spread index, which the slope adjustment computes
    again as [fF]: the fine fuel moisture function, of the moisture content
    [mc]. *)
Definition fineFuelMoisture (mc : R) : R :=
  91.9 * exp (- 0.1386 * mc) * (1 + JS.Math_pow mc 5.31 / 49300000).

(* ================================================================= *)
(** ** One observation of the slope adjustment

    As for the engine: the computation [slopeAdjustment] performs at one
    index, on the twelve values found there ([BUI] is not read and [ISI]
    only gives [PDF100] its length).  [slopeAdjustment_at] proves that the
    batched code computes this at every index of a well-formed batch that
    holds no non-fuel and no water observation. *)

Record SlopeObs : Type := mkSlopeObs {
  s_fuel : string;
  s_ffmc : R;
  s_ws : R;
  s_waz : R;
  s_gs : R;
  s_saz : R;
  s_fmc : R;
  s_sfc : R;
  s_pc : R;
  s_pdf : R;
  s_cc : R;
  s_cbh : R
}.

(** The fourteen arrays of a call have the same length [n]. *)
Definition slope_wf (n : nat) (FUELTYPE : list string)
    (FFMC BUI WS WAZ GS SAZ FMC SFC PC PDF CC CBH ISI : list R) : Prop :=
  List.length FUELTYPE = n /\ List.length FFMC = n /\ List.length BUI = n /\
  List.length WS = n /\ List.length WAZ = n /\ List.length GS = n /\
  List.length SAZ = n /\ List.length FMC = n /\ List.length SFC = n /\
  List.length PC = n /\ List.length PDF = n /\ List.length CC = n /\
  List.length CBH = n /\ List.length ISI = n.

(** The observation at index [i] of a call. *)
Definition slope_obs (FUELTYPE : list string)
    (FFMC WS WAZ GS SAZ FMC SFC PC PDF CC CBH : list R) (i : nat) : SlopeObs :=
  mkSlopeObs (JS.sat FUELTYPE i) (JS.at_ FFMC i) (JS.at_ WS i) (JS.at_ WAZ i)
    (JS.at_ GS i) (JS.at_ SAZ i) (JS.at_ FMC i) (JS.at_ SFC i) (JS.at_ PC i)
    (JS.at_ PDF i) (JS.at_ CC i) (JS.at_ CBH i).

Module SlopeEl.

Import JS.

Section One.

Variable o : SlopeObs.

Definition sf : R :=
  if s_gs o >=? 70 then 10 else exp (3.533 * Math_pow (s_gs o / 100) 1.2).

Definition isz : R := initialSpreadIndex (s_ffmc o) 0 false.

(** The zero-wind spread rate of fuel type [ft], with the percentage of dead
    balsam fir [pdf_]. *)
Definition rsf (ft : string) (pdf_ : R) : R :=
  rateOfSpreadAt
    (mkObs ft isz (-1) (s_fmc o) (s_sfc o) (s_pc o) pdf_ (s_cc o) (s_cbh o))
  * sf.

Definition isf_1 : R :=
  if includes Slope.basic (s_fuel o)
  then Slope.invert (s_fuel o) (get Slope.a (s_fuel o))
         (rsf (s_fuel o) (s_pdf o))
  else -99.

Definition isf_2 : R :=
  if String.eqb (s_fuel o) "M1" || String.eqb (s_fuel o) "M2" then
    s_pc o / 100 * Slope.invert "C2" (get Slope.a "C2") (rsf "C2" (s_pdf o))
    + (1 - s_pc o / 100)
      * Slope.invert "D1" (get Slope.a "D1") (rsf "D1" (s_pdf o))
  else isf_1.

Definition isf_mixed (M : string) (prev : R) : R :=
  if String.eqb (s_fuel o) M then
    s_pdf o / 100 * Slope.invert M (get Slope.a M) (rsf M 100)
    + (1 - s_pdf o / 100)
      * Slope.invert "D1" (get Slope.a "D1") (rsf "D1" 100)
  else prev.

Definition isf_4 : R := isf_mixed "M4" (isf_mixed "M3" isf_2).

Definition isf : R :=
  if String.eqb (s_fuel o) "O1A" || String.eqb (s_fuel o) "O1B"
  then Slope.invert (s_fuel o)
         (curing (s_cc o) * get Slope.a (s_fuel o))
         (rsf (s_fuel o) (s_pdf o))
  else isf_4.

Definition ff : R := fineFuelMoisture (101 - s_ffmc o).

Definition wse : R := 1 / 0.05039 * ln (isf / (0.208 * ff)).

Definition adjusted : R :=
  if (wse >? 40) && (isf <? 0.999 * 2.496 * ff) then
    28 - (1 / 0.0818 * ln (1 - isf / (2.496 * ff)))
  else if (wse >? 40) && (isf >=? 0.999 * 2.496 * ff) then 112.45
  else wse.

Definition wsx : R := s_ws o * sin (s_waz o) + adjusted * sin (s_saz o).

Definition wsy : R := s_ws o * cos (s_waz o) + adjusted * cos (s_saz o).

Definition wsv : R := sqrt (wsx * wsx + wsy * wsy).

Definition raz : R := acos (wsy / wsv).

Definition adjustedRaz : R := if wsx <? 0 then 2 * PI - raz else raz.

Definition result : SlopeAdjustmentResult :=
  mkSlopeAdjustmentResult (Some wsv) (Some adjustedRaz).

End One.

End SlopeEl.

(** The batch that holds one observation. *)
Definition single (o : Obs) : InputParams :=
  mkInputParams [fuel o] [isi o] [bui o] [fmc o] [sfc o] [pc o] [pdf o]
                [cc o] [cbh o].

(** Case analysis on every comparison of reals in the goal. *)
Ltac rcases :=
  unfold JS.gtb, JS.ltb, JS.geb, JS.leb in *;
  repeat match goal with
         | |- context [Rlt_dec ?x ?y] => destruct (Rlt_dec x y)
         | |- context [Rle_dec ?x ?y] => destruct (Rle_dec x y)
         end;
  cbn [andb orb negb] in *.

(* ================================================================= *)
(** ** Double precision

    The source computes on binary64 numbers.  Where a property depends on
    the rounding, the expression of the source is given a second time here,
    on the binary64 numbers of the kernel, whose [+], [-], [*], [/] and
    comparisons are the IEEE 754 operations that JavaScript uses; a decimal
    constant is read as the nearest binary64 number, as JavaScript reads
    it. *)

Module Binary64.

Import Floats.
#[local] Set Warnings "-inexact-float".
Local Open Scope float_scope.

(** The integer that a binary64 number holds (its integral part). *)
Definition toZ (k : float) : Z :=
  match Prim2SF k with
  | SpecFloat.S754_finite s m e =>
      let v := if Z.leb 0 e then Z.shiftl (Zpos m) e
               else Z.shiftr (Zpos m) (- e) in
      if s then Z.opp v else v
  | _ => 0%Z
  end.

(** Rounding to the nearest integer by the magic constant [1.5 * 2 ^ 52]. *)
Definition nearest_integer (t : float) : float :=
  (t + 0x1.8p52) - 0x1.8p52.

(** The series of the exponential up to the term of degree 14, in Horner
    form. *)
Definition series (r : float) : float :=
  1 + r * (1 + r / 2 * (1 + r / 3 * (1 + r / 4 * (1 + r / 5 * (1 + r / 6 *
  (1 + r / 7 * (1 + r / 8 * (1 + r / 9 * (1 + r / 10 * (1 + r / 11 *
  (1 + r / 12 * (1 + r / 13 * (1 + r / 14))))))))))))).

(** [Math.exp], which the language leaves to the implementation as an
    approximation of the exponential.  This one reduces the argument by a
    multiple [k] of [ln 2] (kept in two parts), sums the series of the
    remainder and scales the sum by [2 ^ k].  The facts proved from it below
    rest on the size of the exponential, not on its last digits: they hold
    for every approximation that is accurate to a few per cent
    ([exp_below_half_ulp] and [curve_base_below_half_ulp] bound the
    exponential itself). *)
Definition Math_exp (x : float) : float :=
  if is_nan x then x
  else if 709.782712893384 <? x then infinity
  else if x <? -745.1332191019412 then 0
  else
    let k := nearest_integer (x * 1.4426950408889634) in
    let r := (x - k * 0x1.62e42fee00000p-1) - k * 0x1.a39ef35793c76p-33 in
    Z.ldexp (series r) (toZ k).

(** [crownFractionBurned] of CFBcalc.ts. *)
Definition crownFractionBurned (ROS RSO : float) : float :=
  if RSO <? ROS then 1 - Math_exp (-0.23 * (ROS - RSO)) else 0.

(** The base [1 - Math.exp(-b * ISI)] of the spread-rate curve of a fuel
    type, for its parameter [b] (the engine raises it to the power [c0] and
    multiplies it by [a]). *)
Definition curve_base (b ISI : float) : float :=
  1 - Math_exp (- b * ISI).

(** [rateOfSpreadC6] of C6calc.ts (Eq. 65). *)
Definition rateOfSpreadC6 (RSC RSS CFB : float) : float :=
  if RSS <? RSC then RSS + CFB * (RSC - RSS) else RSS.

End Binary64.

(* ================================================================= *)
(** * Properties *)

(** ** Arrays *)

Section Arrays.

Context {A B : Type}.

Lemma imap_from_length (k : nat) (f : A -> nat -> B) (l : list A) :
  List.length (JS.imap_from k f l) = List.length l.
Proof.
  revert k; induction l as [|x l IH]; intros k; simpl; [reflexivity|].
  now rewrite IH.
Qed.

Lemma imap_length (f : A -> nat -> B) (l : list A) :
  List.length (JS.imap f l) = List.length l.
Proof. apply imap_from_length. Qed.

Lemma nth_imap_from (k : nat) (f : A -> nat -> B) (l : list A) (i : nat)
      (dA : A) (dB : B) :
  (i < List.length l)%nat ->
  nth i (JS.imap_from k f l) dB = f (nth i l dA) (k + i)%nat.
Proof.
  revert k i; induction l as [|x l IH]; intros k i Hi; simpl in Hi; [lia|].
  destruct i as [|i]; simpl.
  - now rewrite Nat.add_0_r.
  - rewrite (IH (S k) i) by lia. f_equal. lia.
Qed.

Lemma nth_imap (f : A -> nat -> B) (l : list A) (i : nat) (dA : A) (dB : B) :
  (i < List.length l)%nat -> nth i (JS.imap f l) dB = f (nth i l dA) i.
Proof.
  intros Hi. unfold JS.imap. now rewrite (nth_imap_from 0 f l i dA dB).
Qed.

(** Two callbacks that agree at every index of the array give the same
    array. *)
Lemma imap_from_ext (k : nat) (f g : A -> nat -> B) (l : list A) :
  (forall i x, (i < List.length l)%nat -> f x (k + i)%nat = g x (k + i)%nat) ->
  JS.imap_from k f l = JS.imap_from k g l.
Proof.
  revert k; induction l as [|x l IH]; intros k H; simpl; [reflexivity|].
  f_equal.
  - generalize (H 0%nat x). rewrite Nat.add_0_r. intros E; apply E; simpl; lia.
  - apply IH. intros i y Hi.
    replace (S k + i)%nat with (k + S i)%nat by lia. apply H. simpl; lia.
Qed.

Lemma imap_ext (f g : A -> nat -> B) (l : list A) :
  (forall i x, (i < List.length l)%nat -> f x i = g x i) ->
  JS.imap f l = JS.imap g l.
Proof. intros H. apply imap_from_ext. exact H. Qed.

End Arrays.

Lemma at_imap (f : R -> nat -> R) (l : list R) (i : nat) :
  (i < List.length l)%nat -> JS.at_ (JS.imap f l) i = f (JS.at_ l i) i.
Proof. intros Hi. unfold JS.at_. now apply nth_imap. Qed.

Lemma at_imap_s (f : string -> nat -> R) (l : list string) (i : nat) :
  (i < List.length l)%nat -> JS.at_ (JS.imap f l) i = f (JS.sat l i) i.
Proof. intros Hi. unfold JS.at_, JS.sat. now apply nth_imap. Qed.

Lemma at_map (f : R -> R) (l : list R) (i : nat) :
  (i < List.length l)%nat -> JS.at_ (map f l) i = f (JS.at_ l i).
Proof.
  intros Hi. unfold JS.at_.
  rewrite (nth_indep (map f l) 0 (f 0)) by now rewrite length_map.
  apply map_nth.
Qed.

Lemma at_repeat (x : R) (n i : nat) :
  (i < n)%nat -> JS.at_ (repeat x n) i = x.
Proof.
  intros Hi. unfold JS.at_. apply nth_repeat_lt. exact Hi.
Qed.

Lemma sat_repeat (x : string) (n i : nat) :
  (i < n)%nat -> JS.sat (repeat x n) i = x.
Proof.
  intros Hi. unfold JS.sat. apply nth_repeat_lt. exact Hi.
Qed.

(* ================================================================= *)
(** ** The engine at one index *)

Section EngineAt.

Variable f : InputParams -> list R.
Variable p : InputParams.
Variables n i : nat.
Hypothesis Hwf : wf n p.
Hypothesis Hi : (i < n)%nat.

Local Abbreviation rec := (fun ft => JS.at_ (f (RoS.pure p ft)) i).

Lemma RSI_0_length : List.length (RoS.RSI_0 p) = List.length (ISI p).
Proof. unfold RoS.RSI_0. apply repeat_length. Qed.

Lemma RSI_1_length : List.length (RoS.RSI_1 f p) = List.length (ISI p).
Proof. unfold RoS.RSI_1. now rewrite imap_length, RSI_0_length. Qed.

Lemma RSI_2_length : List.length (RoS.RSI_2 f p) = List.length (ISI p).
Proof. unfold RoS.RSI_2. now rewrite imap_length, RSI_1_length. Qed.

Lemma RSI_3_length : List.length (RoS.RSI_3 f p) = List.length (ISI p).
Proof. unfold RoS.RSI_3. now rewrite imap_length, RSI_2_length. Qed.

Lemma RSI_4_length : List.length (RoS.RSI_4 f p) = List.length (ISI p).
Proof. unfold RoS.RSI_4. now rewrite imap_length, RSI_3_length. Qed.

Lemma RSI_v_length : List.length (RoS.RSI_v f p) = List.length (ISI p).
Proof. unfold RoS.RSI_v. now rewrite imap_length, RSI_4_length. Qed.

Lemma ISI_length : List.length (ISI p) = n.
Proof. apply Hwf. Qed.

Lemma RSI_1_at : JS.at_ (RoS.RSI_1 f p) i = El.rsi_1 rec (obs p i).
Proof.
  unfold RoS.RSI_1. rewrite at_imap by now rewrite RSI_0_length, ISI_length.
  reflexivity.
Qed.

Lemma RSI_2_at : JS.at_ (RoS.RSI_2 f p) i = El.rsi_2 rec (obs p i).
Proof.
  unfold RoS.RSI_2. rewrite at_imap by now rewrite RSI_1_length, ISI_length.
  unfold El.rsi_2; cbn [fuel isi pdf obs].
  destruct (String.eqb (JS.sat (FUELTYPE p) i) "M3") eqn:E.
  - unfold RoS.RSI_m3.
    rewrite at_imap by now rewrite RSI_1_length, ISI_length.
    rewrite E. reflexivity.
  - apply RSI_1_at.
Qed.

Lemma RSI_3_at : JS.at_ (RoS.RSI_3 f p) i = El.rsi_3 rec (obs p i).
Proof.
  unfold RoS.RSI_3. rewrite at_imap by now rewrite RSI_2_length, ISI_length.
  unfold El.rsi_3; cbn [fuel isi pdf obs].
  destruct (String.eqb (JS.sat (FUELTYPE p) i) "M4") eqn:E.
  - unfold RoS.RSI_m4.
    rewrite at_imap by now rewrite RSI_2_length, ISI_length.
    rewrite E. reflexivity.
  - apply RSI_2_at.
Qed.

Lemma RSI_4_at : JS.at_ (RoS.RSI_4 f p) i = El.rsi_4 rec (obs p i).
Proof.
  unfold RoS.RSI_4. rewrite at_imap by now rewrite RSI_3_length, ISI_length.
  unfold El.rsi_4; cbn [fuel isi cc obs].
  destruct (JS.includes RoS.grass (JS.sat (FUELTYPE p) i)) eqn:E.
  - unfold RoS.CF.
    rewrite at_imap by now rewrite RSI_3_length, ISI_length.
    rewrite E. reflexivity.
  - apply RSI_3_at.
Qed.

Lemma RSI_v_at : JS.at_ (RoS.RSI_v f p) i = El.rsi rec (obs p i).
Proof.
  unfold RoS.RSI_v. rewrite at_imap by now rewrite RSI_4_length, ISI_length.
  unfold El.rsi; cbn [fuel isi obs]. now rewrite RSI_4_at.
Qed.

Lemma CSI_v_at : JS.at_ (RoS.CSI_v p) i = El.csi (obs p i).
Proof.
  unfold RoS.CSI_v. rewrite at_imap; [reflexivity|].
  destruct Hwf as (_ & _ & _ & H & _). now rewrite H.
Qed.

Lemma RSO_v_at : JS.at_ (RoS.RSO_v p) i = El.rso (obs p i).
Proof.
  unfold RoS.RSO_v. rewrite at_imap.
  - now rewrite CSI_v_at.
  - destruct Hwf as (_ & _ & _ & _ & H & _). now rewrite H.
Qed.

Lemma RSC_v_at : JS.at_ (RoS.RSC_v p) i = El.rsc (obs p i).
Proof.
  unfold RoS.RSC_v. rewrite at_imap_s; [reflexivity|].
  destruct Hwf as (H & _). now rewrite H.
Qed.

Lemma RSS_v_at : JS.at_ (RoS.RSS_v f p) i = El.rss rec (obs p i).
Proof.
  unfold RoS.RSS_v. rewrite at_imap by now rewrite RSI_v_length, ISI_length.
  unfold El.rss; cbn [fuel bui obs]. now rewrite RSI_v_at.
Qed.

Lemma CFB_v_at : JS.at_ (RoS.CFB_v f p) i = El.cfb rec (obs p i).
Proof.
  unfold RoS.CFB_v. rewrite at_imap by now rewrite RSI_v_length, ISI_length.
  unfold El.cfb; cbn [fuel obs]. now rewrite RSC_v_at, RSS_v_at, RSO_v_at.
Qed.

Lemma ROS_v_length : List.length (RoS.ROS_v f p) = List.length (ISI p).
Proof. unfold RoS.ROS_v. now rewrite imap_length, RSI_v_length. Qed.

Lemma ROS_v_at : JS.at_ (RoS.ROS_v f p) i = El.ros rec (obs p i).
Proof.
  unfold RoS.ROS_v. rewrite at_imap by now rewrite RSI_v_length, ISI_length.
  unfold El.ros; cbn [fuel obs]. now rewrite RSC_v_at, RSS_v_at, CFB_v_at.
Qed.

Lemma constrainedROS_at :
  JS.at_ (RoS.constrainedROS f p) i = El.constrained rec (obs p i).
Proof.
  unfold RoS.constrainedROS.
  rewrite at_map by now rewrite ROS_v_length, ISI_length.
  now rewrite ROS_v_at.
Qed.

End EngineAt.

(** The batch handed to a recursive call is well formed, and its
    observations are those of the caller with the fuel type replaced and the
    buildup index disabled. *)
Lemma pure_wf (n : nat) (p : InputParams) (ft : string) :
  wf n p -> wf n (RoS.pure p ft).
Proof.
  intros (H1 & H2 & H3 & H4 & H5 & H6 & H7 & H8 & H9).
  unfold wf, RoS.pure, RoS.NoBUI; cbn [FUELTYPE ISI BUI FMC SFC PC PDF CC CBH].
  rewrite !repeat_length. tauto.
Qed.

Lemma obs_pure (n i : nat) (p : InputParams) (ft : string) :
  wf n p -> (i < n)%nat -> obs (RoS.pure p ft) i = pure_obs ft (obs p i).
Proof.
  intros Hwf Hi. pose proof (ISI_length p n Hwf) as HI.
  unfold obs, pure_obs, RoS.pure, RoS.NoBUI.
  cbn [FUELTYPE ISI BUI FMC SFC PC PDF CC CBH
       fuel isi bui fmc sfc pc pdf cc cbh].
  rewrite HI, sat_repeat, at_repeat by exact Hi. reflexivity.
Qed.

(** The value at one index depends on the recursive calls through their
    values for C2 and D1 only. *)
Lemma constrained_ext (r1 r2 : string -> R) (o : Obs) :
  r1 "C2" = r2 "C2" -> r1 "D1" = r2 "D1" ->
  El.constrained r1 o = El.constrained r2 o /\
  El.cfb r1 o = El.cfb r2 o /\ El.rss r1 o = El.rss r2 o /\
  El.rsi r1 o = El.rsi r2 o.
Proof.
  intros H1 H2.
  assert (E : El.rsi r1 o = El.rsi r2 o).
  { unfold El.rsi, El.rsi_4, El.rsi_3, El.rsi_2, El.rsi_1.
    now rewrite H1, H2. }
  assert (E1 : El.rss r1 o = El.rss r2 o) by (unfold El.rss; now rewrite E).
  assert (E2 : El.cfb r1 o = El.cfb r2 o) by (unfold El.cfb; now rewrite E1).
  repeat split; trivial.
  unfold El.constrained, El.ros. now rewrite E1, E2.
Qed.

Lemma at_nil (i : nat) : JS.at_ [] i = 0.
Proof. unfold JS.at_. now destruct i. Qed.

(** The batched engine computes, at every index of a well-formed batch, the
    one-observation engine on the observation found there. *)
Lemma unroll_at (k : nat) :
  forall (p : InputParams) (n i : nat),
    wf n p -> (i < n)%nat ->
    JS.at_ (ROS (RoS.unroll k p)) i = El.unroll k (obs p i).
Proof.
  induction k as [|k IH]; intros p n i Hwf Hi.
  - apply at_nil.
  - cbn [RoS.unroll El.unroll]. unfold RoS.body; cbn [ROS].
    rewrite (constrainedROS_at _ p n i Hwf Hi).
    apply constrained_ext.
    + rewrite (IH _ n i (pure_wf n p "C2" Hwf) Hi).
      now rewrite (obs_pure n i p "C2" Hwf Hi).
    + rewrite (IH _ n i (pure_wf n p "D1" Hwf) Hi).
      now rewrite (obs_pure n i p "D1" Hwf Hi).
Qed.

Lemma rateOfSpread_at (p : InputParams) (n i : nat) :
  wf n p -> (i < n)%nat ->
  JS.at_ (rateOfSpread p) i = rateOfSpreadAt (obs p i).
Proof. intros Hwf Hi. apply (unroll_at 2 p n i Hwf Hi). Qed.

Lemma rateOfSpread_length (p : InputParams) :
  List.length (rateOfSpread p) = List.length (ISI p).
Proof.
  unfold rateOfSpread, rateOfSpreadExtended; cbn [RoS.unroll].
  unfold RoS.body; cbn [ROS]. unfold RoS.constrainedROS.
  now rewrite length_map, ROS_v_length.
Qed.

(** The recursive calls made for a blend, at one index. *)
Lemma rec_at (p : InputParams) (n i : nat) (ft : string) :
  wf n p -> (i < n)%nat ->
  JS.at_ (ROS (RoS.unroll 1 (RoS.pure p ft))) i
  = pureRateOfSpreadAt ft (obs p i).
Proof.
  intros Hwf Hi. unfold pureRateOfSpreadAt.
  rewrite (unroll_at 1 _ n i (pure_wf n p ft Hwf) Hi).
  now rewrite (obs_pure n i p ft Hwf Hi).
Qed.

(** ** Pure fuel: the recursion stops *)

Lemma buildupEffect_disabled (ft : string) : buildupEffect ft (-1) = 1.
Proof.
  unfold buildupEffect. destruct (JS.lookup BUIo ft); [|reflexivity].
  rcases; try reflexivity; lra.
Qed.

Lemma constrained_pure (r : string -> R) (ft : string) (o : Obs) :
  In ft RoS.simple ->
  El.constrained r (pure_obs ft o) = constrain (RoS.curve ft (isi o)).
Proof.
  intros H. unfold El.constrained, El.ros, El.rss, El.rsi, El.rsi_4, El.rsi_3,
    El.rsi_2, El.rsi_1; cbn [fuel isi bui pure_obs].
  rewrite buildupEffect_disabled.
  cbn in H; decompose [or] H; subst; try contradiction; cbn;
    f_equal; apply Rmult_1_l.
Qed.

Lemma pureRateOfSpreadAt_simple (ft : string) (o : Obs) :
  In ft RoS.simple ->
  pureRateOfSpreadAt ft o = constrain (RoS.curve ft (isi o)).
Proof.
  intros H. unfold pureRateOfSpreadAt; cbn [El.unroll].
  now apply constrained_pure.
Qed.

(** More unrolling does not change the value: two levels are enough. *)
Lemma El_unroll_stable (k : nat) (o : Obs) :
  El.unroll (2 + k) o = El.unroll 2 o.
Proof.
  cbn [El.unroll Nat.add].
  apply constrained_ext; rewrite !constrained_pure; cbn; tauto.
Qed.

Lemma unroll_stable_at (k : nat) (p : InputParams) (n i : nat) :
  wf n p -> (i < n)%nat ->
  JS.at_ (ROS (RoS.unroll (2 + k) p)) i = JS.at_ (rateOfSpread p) i.
Proof.
  intros Hwf Hi. unfold rateOfSpread, rateOfSpreadExtended.
  rewrite !(unroll_at _ p n i Hwf Hi). apply El_unroll_stable.
Qed.

Lemma pure_call_stable (p : InputParams) (n : nat) (ft : string) :
  wf n p -> In ft RoS.simple ->
  ROS (RoS.unroll 1 (RoS.pure p ft)) = rateOfSpread (RoS.pure p ft).
Proof.
  intros Hwf Hft.
  pose proof (pure_wf n p ft Hwf) as Hq.
  assert (L : forall k,
            List.length (ROS (RoS.unroll (S k) (RoS.pure p ft))) = n).
  { intros k. cbn [RoS.unroll]. unfold RoS.body; cbn [ROS].
    unfold RoS.constrainedROS.
    rewrite length_map, ROS_v_length. apply (ISI_length _ n Hq). }
  apply (nth_ext _ _ 0 0).
  - unfold rateOfSpread, rateOfSpreadExtended. now rewrite !L.
  - intros i Hi. rewrite L in Hi.
    change (JS.at_ (ROS (RoS.unroll 1 (RoS.pure p ft))) i
            = JS.at_ (rateOfSpread (RoS.pure p ft)) i).
    rewrite (rateOfSpread_at _ n i Hq Hi), (unroll_at 1 _ n i Hq Hi).
    rewrite (obs_pure n i p ft Hwf Hi).
    unfold rateOfSpreadAt; cbn [El.unroll].
    now rewrite !constrained_pure.
Qed.

(** The equation of the source: [rateOfSpreadExtended] is its body, with
    [rateOfSpread] itself for the recursive calls.  Hence
    [RoS.RSI_v rateOfSpread p], [RoS.RSS_v rateOfSpread p] and
    [RoS.ROS_v rateOfSpread p] are the arrays [RSI], [RSS] and [ROS] of the
    source in the call [rateOfSpreadExtended p]. *)
Theorem rateOfSpreadExtended_eq (p : InputParams) (n : nat) :
  wf n p -> rateOfSpreadExtended p = RoS.body rateOfSpread p.
Proof.
  intros Hwf.
  change (rateOfSpreadExtended p)
    with (RoS.body (fun q => ROS (RoS.unroll 1 q)) p).
  unfold RoS.body, RoS.constrainedROS, RoS.ROS_v, RoS.CFB_v, RoS.RSS_v,
    RoS.RSI_v, RoS.RSI_4, RoS.CF, RoS.RSI_3, RoS.RSI_m4, RoS.RSI_2,
    RoS.RSI_m3, RoS.RSI_1.
  rewrite (pure_call_stable p n "C2" Hwf) by (cbn; tauto).
  rewrite (pure_call_stable p n "D1" Hwf) by (cbn; tauto).
  reflexivity.
Qed.

(** The four results of the engine at one index. *)
Lemma engine_at (p : InputParams) (n i : nat) :
  wf n p -> (i < n)%nat ->
  let o := obs p i in
  let r := fun ft => pureRateOfSpreadAt ft o in
  JS.at_ (ROS (rateOfSpreadExtended p)) i = rateOfSpreadAt o /\
  JS.at_ (CFB (rateOfSpreadExtended p)) i = El.cfb r o /\
  JS.at_ (CSI (rateOfSpreadExtended p)) i = El.csi o /\
  JS.at_ (RSO (rateOfSpreadExtended p)) i = El.rso o /\
  JS.at_ (RoS.RSS_v rateOfSpread p) i = El.rss r o /\
  JS.at_ (RoS.RSI_v rateOfSpread p) i = El.rsi r o.
Proof.
  intros Hwf Hi o r.
  assert (E : forall ft, In ft RoS.simple ->
            JS.at_ (rateOfSpread (RoS.pure p ft)) i = r ft).
  { intros ft Hft. rewrite <- (pure_call_stable p n ft Hwf Hft).
    apply (rec_at p n i ft Hwf Hi). }
  assert (E2 : JS.at_ (rateOfSpread (RoS.pure p "C2")) i = r "C2")
    by (apply E; cbn; tauto).
  assert (E1 : JS.at_ (rateOfSpread (RoS.pure p "D1")) i = r "D1")
    by (apply E; cbn; tauto).
  split; [apply (rateOfSpread_at p n i Hwf Hi)|].
  rewrite (rateOfSpreadExtended_eq p n Hwf).
  unfold RoS.body; cbn [CFB CSI RSO].
  rewrite (CFB_v_at _ p n i Hwf Hi), (CSI_v_at p n i Hwf Hi),
    (RSO_v_at p n i Hwf Hi), (RSS_v_at _ p n i Hwf Hi),
    (RSI_v_at _ p n i Hwf Hi).
  pose proof (constrained_ext
                (fun ft => JS.at_ (rateOfSpread (RoS.pure p ft)) i) r o E2 E1)
    as (_ & Hc & Hs & Hr).
  repeat split; assumption.
Qed.

(* ================================================================= *)
(** ** Crown fraction burned *)

Lemma exp_mono (x y : R) : x <= y -> exp x <= exp y.
Proof.
  intros [H|H]; [left; now apply exp_increasing | subst; apply Rle_refl].
Qed.

Lemma exp_neg_lt_1 (x : R) : x < 0 -> exp x < 1.
Proof. intros H. rewrite <- exp_0. now apply exp_increasing. Qed.

Lemma crownFractionBurned_gt (ROS RSO : R) :
  ROS > RSO -> crownFractionBurned ROS RSO = 1 - exp (- 0.23 * (ROS - RSO)).
Proof. intros H. unfold crownFractionBurned. rcases; [reflexivity | lra]. Qed.

Lemma crownFractionBurned_le (ROS RSO : R) :
  ~ ROS > RSO -> crownFractionBurned ROS RSO = 0.
Proof. intros H. unfold crownFractionBurned. rcases; [lra | reflexivity]. Qed.

Lemma crownFractionBurned_range (ROS RSO : R) :
  0 <= crownFractionBurned ROS RSO < 1.
Proof.
  destruct (Rlt_dec RSO ROS) as [H|H].
  - rewrite crownFractionBurned_gt by exact H.
    pose proof (exp_pos (- 0.23 * (ROS - RSO))).
    pose proof (exp_neg_lt_1 (- 0.23 * (ROS - RSO))). lra.
  - rewrite crownFractionBurned_le by exact H. lra.
Qed.

Lemma crownFractionBurned_pos (ROS RSO : R) :
  ROS > RSO -> 0 < crownFractionBurned ROS RSO.
Proof.
  intros H. rewrite crownFractionBurned_gt by exact H.
  pose proof (exp_neg_lt_1 (- 0.23 * (ROS - RSO))). lra.
Qed.

Lemma crownFractionBurned_mono (RSO r1 r2 : R) :
  r1 <= r2 -> crownFractionBurned r1 RSO <= crownFractionBurned r2 RSO.
Proof.
  intros H. destruct (Rlt_dec RSO r1) as [H1|H1].
  - rewrite !crownFractionBurned_gt by lra.
    pose proof (exp_mono (- 0.23 * (r2 - RSO)) (- 0.23 * (r1 - RSO))). lra.
  - rewrite (crownFractionBurned_le r1) by exact H1.
    apply crownFractionBurned_range.
Qed.

(** Claim C8, with the closed interval: [crownFractionBurned ROS RSO] is
    [1 - exp (-0.23 * (ROS - RSO))] when [ROS > RSO] and [0] otherwise; for a
    fixed [RSO] it is non-decreasing in [ROS]; its value lies in the interval
    [0, 1].  Over the reals the value [1] is not reached; in double precision
    it is ([C8_saturation_counterexample]). *)
Theorem C8_crownFractionBurned_closed :
  (forall ROS RSO, ROS > RSO ->
     crownFractionBurned ROS RSO = 1 - exp (- 0.23 * (ROS - RSO))) /\
  (forall ROS RSO, ~ ROS > RSO -> crownFractionBurned ROS RSO = 0) /\
  (forall RSO r1 r2, r1 <= r2 ->
     crownFractionBurned r1 RSO <= crownFractionBurned r2 RSO) /\
  (forall ROS RSO, 0 <= crownFractionBurned ROS RSO <= 1).
Proof.
  repeat split.
  - apply crownFractionBurned_gt.
  - apply crownFractionBurned_le.
  - apply crownFractionBurned_mono.
  - apply crownFractionBurned_range.
  - left. apply crownFractionBurned_range.
Qed.

(** Witness of claim C8, at the rates 3 and 5 against the threshold 2: the
    closed form, the order and the range. *)
Lemma C8_crownFractionBurned_closed_witness :
  crownFractionBurned 3 2 = 1 - exp (- 0.23 * (3 - 2)) /\
  crownFractionBurned 1 2 = 0 /\
  crownFractionBurned 3 2 <= crownFractionBurned 5 2 /\
  0 <= crownFractionBurned 5 2 <= 1.
Proof.
  destruct C8_crownFractionBurned_closed as (H1 & H2 & H3 & H4).
  split; [apply H1; lra|].
  split; [apply H2; lra|].
  split; [apply H3; lra|].
  apply H4.
Defined.

(** *** The value [1] in double precision *)

(** A lower bound passes from [exp y] to [exp (y + y)] by squaring. *)
Lemma exp_double_lb (y z l l' : R) :
  z = y + y -> 0 <= l -> l <= exp y -> l' <= l * l -> l' <= exp z.
Proof.
  intros -> H0 H1 H2. rewrite exp_plus.
  apply Rle_trans with (l * l); [exact H2|].
  apply Rmult_le_compat; assumption.
Qed.

(** [exp 37.49] exceeds [2 ^ 54]: sixteen squarings from
    [1 + 37.49 / 65536 <= exp (37.49 / 65536)], each bound rounded down. *)
Lemma exp_37_49_lb : 2 ^ 54 < exp 37.49.
Proof.
  assert (H0 : 1.000572052001 <= exp (37.49 / 65536)).
  { pose proof (exp_ineq1_le (37.49 / 65536)). lra. }
  assert (H1 : 1.001144431245 <= exp (37.49 / 32768))
    by (refine (exp_double_lb _ _ _ _ _ _ H0 _); lra).
  assert (H2 : 1.002290172212 <= exp (37.49 / 16384))
    by (refine (exp_double_lb _ _ _ _ _ _ H1 _); lra).
  assert (H3 : 1.004585589312 <= exp (37.49 / 8192))
    by (refine (exp_double_lb _ _ _ _ _ _ H2 _); lra).
  assert (H4 : 1.009192206253 <= exp (37.49 / 4096))
    by (refine (exp_double_lb _ _ _ _ _ _ H3 _); lra).
  assert (H5 : 1.018468909161 <= exp (37.49 / 2048))
    by (refine (exp_double_lb _ _ _ _ _ _ H4 _); lra).
  assert (H6 : 1.037278918927 <= exp (37.49 / 1024))
    by (refine (exp_double_lb _ _ _ _ _ _ H5 _); lra).
  assert (H7 : 1.075947555650 <= exp (37.49 / 512))
    by (refine (exp_double_lb _ _ _ _ _ _ H6 _); lra).
  assert (H8 : 1.157663142509 <= exp (37.49 / 256))
    by (refine (exp_double_lb _ _ _ _ _ _ H7 _); lra).
  assert (H9 : 1.340183951523 <= exp (37.49 / 128))
    by (refine (exp_double_lb _ _ _ _ _ _ H8 _); lra).
  assert (H10 : 1.796093023919 <= exp (37.49 / 64))
    by (refine (exp_double_lb _ _ _ _ _ _ H9 _); lra).
  assert (H11 : 3.225950150570 <= exp (37.49 / 32))
    by (refine (exp_double_lb _ _ _ _ _ _ H10 _); lra).
  assert (H12 : 10.40675437396 <= exp (37.49 / 16))
    by (refine (exp_double_lb _ _ _ _ _ _ H11 _); lra).
  assert (H13 : 108.3005365999 <= exp (37.49 / 8))
    by (refine (exp_double_lb _ _ _ _ _ _ H12 _); lra).
  assert (H14 : 11729.00622782 <= exp (37.49 / 4))
    by (refine (exp_double_lb _ _ _ _ _ _ H13 _); lra).
  assert (H15 : 137569587.0922 <= exp (37.49 / 2))
    by (refine (exp_double_lb _ _ _ _ _ _ H14 _); lra).
  assert (H16 : 18925391292710000 <= exp 37.49)
    by (refine (exp_double_lb _ _ _ _ _ _ H15 _); lra).
  lra.
Qed.

(** The exponential of [-0.23 * 163] is below [2 ^ -54], half the distance
    from [1] to the binary64 number before it: subtracted from [1] it is
    rounded away. *)
Lemma exp_below_half_ulp : exp (- 0.23 * (163 - 0)) < / 2 ^ 54.
Proof.
  replace (- 0.23 * (163 - 0)) with (- (37.49)) by lra.
  rewrite exp_Ropp.
  apply Rinv_lt_contravar; [|exact exp_37_49_lb].
  apply Rmult_lt_0_compat; [|apply exp_pos].
  apply pow_lt; lra.
Qed.

Section Saturation.

Import Floats.
#[local] Set Warnings "-inexact-float".
Local Open Scope float_scope.

(** Claim C8 as stated fails in double precision: the value [1] is reached.
    With [ROS - RSO = 163] (and beyond: [200]) the exponential is below
    [2 ^ -54] and [1 - Math.exp(...)] is [1], which is not below [1]; with
    [ROS - RSO = 162] the result is the binary64 number before [1].  Every
    value of [Math.exp] from [0] to [2 ^ -54] gives the same result: the
    subtraction rounds to [1] at both ends. *)
Lemma C8_saturation_counterexample :
  Binary64.crownFractionBurned 163 0 = 1 /\
  (Binary64.crownFractionBurned 163 0 <? 1) = false /\
  Binary64.crownFractionBurned 200 0 = 1 /\
  Binary64.crownFractionBurned 162 0 = 0x1.fffffffffffffp-1 /\
  1 - 0x1p-54 = 1 /\ 1 - 0 = 1.
Proof. vm_compute. repeat split. Qed.

End Saturation.

(* ================================================================= *)
(** ** The C6 crown fraction burned *)

Lemma crownFractionBurnedC6_both (RSC RSS RSO : R) :
  RSC > RSS -> RSS > RSO ->
  crownFractionBurnedC6 RSC RSS RSO = crownFractionBurned RSS RSO.
Proof. intros H1 H2. unfold crownFractionBurnedC6. rcases; trivial; lra. Qed.

Lemma crownFractionBurnedC6_else (RSC RSS RSO : R) :
  ~ RSC > RSS \/ ~ RSS > RSO -> crownFractionBurnedC6 RSC RSS RSO = 0.
Proof.
  intros H. unfold crownFractionBurnedC6. rcases; trivial; tauto.
Qed.

(** Claim C3: for the fuel type C6 the crown fraction burned is positive
    only when [RSC > RSS > RSO]; when one of the two inequalities fails it is
    [0], and when both hold it is [crownFractionBurned RSS RSO].  The engine
    returns this value, on its own [RSC], [RSS] and [RSO], at every C6
    observation of a batch. *)
Theorem C3_crownFractionBurnedC6 :
  (forall RSC RSS RSO,
     crownFractionBurnedC6 RSC RSS RSO > 0 -> RSC > RSS /\ RSS > RSO) /\
  (forall RSC RSS RSO,
     ~ RSC > RSS \/ ~ RSS > RSO -> crownFractionBurnedC6 RSC RSS RSO = 0) /\
  (forall RSC RSS RSO,
     RSC > RSS -> RSS > RSO ->
     crownFractionBurnedC6 RSC RSS RSO = crownFractionBurned RSS RSO /\
     crownFractionBurnedC6 RSC RSS RSO > 0) /\
  (forall p n i,
     wf n p -> (i < n)%nat -> JS.sat (FUELTYPE p) i = "C6" ->
     let RSC := crownRateOfSpreadC6 (JS.at_ (ISI p) i) (JS.at_ (FMC p) i) in
     let RSS := surfaceRateOfSpreadC6
                  (intermediateSurfaceRateOfSpreadC6 (JS.at_ (ISI p) i))
                  (JS.at_ (BUI p) i) in
     let RSO := surfaceFireRateOfSpread
                  (criticalSurfaceIntensity (JS.at_ (FMC p) i)
                                            (JS.at_ (CBH p) i))
                  (JS.at_ (SFC p) i) in
     JS.at_ (CFB (rateOfSpreadExtended p)) i
     = crownFractionBurnedC6 RSC RSS RSO).
Proof.
  split; [|split; [|split]].
  - intros RSC RSS RSO H.
    destruct (Rlt_dec RSS RSC) as [H1|H1];
      destruct (Rlt_dec RSO RSS) as [H2|H2];
      try (split; assumption);
      rewrite crownFractionBurnedC6_else in H by tauto; lra.
  - apply crownFractionBurnedC6_else.
  - intros RSC RSS RSO H1 H2.
    rewrite crownFractionBurnedC6_both by assumption.
    split; [reflexivity | now apply crownFractionBurned_pos].
  - intros p n i Hwf Hi Hf RSC RSS RSO.
    destruct (engine_at p n i Hwf Hi) as (_ & E & _).
    rewrite E. unfold El.cfb, El.rsc, El.rss, El.rso, El.csi, El.rsi.
    cbn [obs fuel isi bui fmc sfc cbh]. rewrite Hf. reflexivity.
Qed.

Lemma single_wf (o : Obs) : wf 1 (single o).
Proof. repeat split. Qed.

Lemma obs_single (o : Obs) : obs (single o) 0 = o.
Proof. now destruct o. Qed.

(** Witness of claim C3: the function at [RSC > RSS > RSO], and the
    engine on a batch of one C6 observation. *)
Lemma C3_crownFractionBurnedC6_witness :
  (crownFractionBurnedC6 3 2 1 = crownFractionBurned 2 1 /\
   crownFractionBurnedC6 3 2 1 > 0) /\
  crownFractionBurnedC6 1 2 1 = 0 /\
  JS.at_ (CFB (rateOfSpreadExtended
                 (single (mkObs "C6" 10 60 100 1 0 0 0 7)))) 0
  = crownFractionBurnedC6
      (crownRateOfSpreadC6 10 100)
      (surfaceRateOfSpreadC6 (intermediateSurfaceRateOfSpreadC6 10) 60)
      (surfaceFireRateOfSpread (criticalSurfaceIntensity 100 7) 1).
Proof.
  destruct C3_crownFractionBurnedC6 as (_ & H2 & H3 & H4).
  split; [apply H3; lra|].
  split; [apply H2; left; lra|].
  apply (H4 (single (mkObs "C6" 10 60 100 1 0 0 0 7)) 1%nat 0%nat).
  - apply single_wf.
  - lia.
  - reflexivity.
Defined.

(* ================================================================= *)
(** ** Buildup effect *)

Lemma buildupEffect_known (ft : string) (BUI buio : R) :
  JS.lookup BUIo ft = Some buio ->
  (BUI <= 0 \/ buio <= 0 -> buildupEffect ft BUI = 1) /\
  (~ (BUI <= 0 \/ buio <= 0) ->
   buildupEffect ft BUI = exp (50 * ln (JS.get Q ft) * (1 / BUI - 1 / buio))).
Proof.
  intros E. unfold buildupEffect. rewrite E.
  split; intros H; rcases; trivial; lra.
Qed.

Lemma BUIo_defined (ft : string) :
  In ft d -> JS.lookup BUIo ft = Some (JS.get BUIo ft).
Proof.
  intros H. cbn in H. decompose [or] H; subst; try contradiction; reflexivity.
Qed.

(** Claim C4: for each of the seventeen fuel types and every [BUI],
    [buildupEffect] is [1] when [BUI <= 0] or the reference [BUIo] of the fuel
    type is [<= 0], and [exp (50 * ln Q * (1 / BUI - 1 / BUIo))] otherwise; in
    particular it is [1] at the disabled value [-1]. *)
Theorem C4_buildupEffect (ft : string) (BUI : R) :
  In ft d ->
  (BUI <= 0 \/ JS.get BUIo ft <= 0 -> buildupEffect ft BUI = 1) /\
  (~ (BUI <= 0 \/ JS.get BUIo ft <= 0) ->
   buildupEffect ft BUI
   = exp (50 * ln (JS.get Q ft) * (1 / BUI - 1 / JS.get BUIo ft))) /\
  buildupEffect ft (-1) = 1.
Proof.
  intros H. pose proof (BUIo_defined ft H) as E.
  destruct (buildupEffect_known ft BUI _ E) as [H1 H2].
  repeat split; trivial. apply buildupEffect_disabled.
Qed.

(** Witness of claim C4, at the fuel type C2 and [BUI = 60]: the damping of
    Eq. 54 with [BUIo = 64] and
    [Q = 0.7]. *)
Lemma C4_buildupEffect_witness :
  buildupEffect "C2" 60 = exp (50 * ln 0.7 * (1 / 60 - 1 / 64)) /\
  buildupEffect "C2" (-1) = 1.
Proof.
  destruct (C4_buildupEffect "C2" 60) as (_ & H2 & H3).
  - cbn; tauto.
  - split; [|exact H3]. rewrite H2.
    + reflexivity.
    + change (JS.get BUIo "C2") with 64. lra.
Defined.

(* ================================================================= *)
(** ** Slope adjustment: the equivalent wind speed *)

Lemma exp_le_inv_1m (x : R) : x < 1 -> exp x <= / (1 - x).
Proof.
  intros H. pose proof (exp_ineq1_le (- x)) as H1.
  pose proof (exp_pos x) as H2. rewrite exp_Ropp in H1.
  apply (Rmult_le_reg_r (1 - x)); [lra|].
  rewrite Rinv_l by lra.
  apply (Rmult_le_reg_r (/ exp x)); [now apply Rinv_0_lt_compat|].
  rewrite Rmult_assoc, (Rmult_comm (1 - x)), <- Rmult_assoc.
  rewrite Rinv_r by lra. lra.
Qed.

Lemma exp_2_0156_lt_12 : exp (40 * 0.05039) < 12.
Proof.
  replace (40 * 0.05039) with (1 + 1 + 0.0156) by lra.
  rewrite !exp_plus.
  pose proof exp_le_3 as H1. pose proof (exp_pos 1) as H2.
  pose proof (exp_le_inv_1m 0.0156) as H3.
  pose proof (exp_pos 0.0156) as H4.
  assert (H5 : / (1 - 0.0156) <= 1.02).
  { apply (Rmult_le_reg_r (1 - 0.0156)); [lra|]. rewrite Rinv_l; lra. }
  assert (H6 : exp 0.0156 <= 1.02) by lra.
  nra.
Qed.

Section EquivalentWind.

Variable FUELTYPE : list string.
Variables FFMC GS FMC SFC PC PDF CC CBH ISI : list R.
Variable i : nat.
Hypothesis Hi : (i < List.length FFMC)%nat.

Local Abbreviation isf :=
  (JS.at_ (Slope.ISF FUELTYPE FFMC GS FMC SFC PC PDF CC CBH ISI) i).
Local Abbreviation ff := (JS.at_ (Slope.fF FFMC) i).
Local Abbreviation wse :=
  (JS.at_ (Slope.WSE FUELTYPE FFMC GS FMC SFC PC PDF CC CBH ISI) i).
Local Abbreviation adj :=
  (JS.at_ (Slope.adjustedWSE FUELTYPE FFMC GS FMC SFC PC PDF CC CBH ISI) i).

Lemma fF_length : List.length (Slope.fF FFMC) = List.length FFMC.
Proof. unfold Slope.fF, Slope.m. now rewrite !length_map. Qed.

Lemma WSE_length :
  List.length (Slope.WSE FUELTYPE FFMC GS FMC SFC PC PDF CC CBH ISI)
  = List.length FFMC.
Proof. unfold Slope.WSE. now rewrite imap_length, fF_length. Qed.

Lemma WSE_at : wse = 1 / 0.05039 * ln (isf / (0.208 * ff)).
Proof.
  unfold Slope.WSE at 1. rewrite at_imap by now rewrite fF_length.
  reflexivity.
Qed.

Lemma adjustedWSE_at :
  adj = if (wse >? 40) && (isf <? 0.999 * 2.496 * ff)
        then 28 - (1 / 0.0818 * ln (1 - isf / (2.496 * ff)))
        else if (wse >? 40) && (isf >=? 0.999 * 2.496 * ff)
             then 112.45 else wse.
Proof.
  unfold Slope.adjustedWSE at 1. rewrite at_imap by now rewrite WSE_length.
  reflexivity.
Qed.

(** A non-positive argument of the high-wind logarithm puts the first
    estimate above 40. *)
Lemma saturated_above_40 :
  0 < ff -> 1 - isf / (2.496 * ff) <= 0 ->
  wse > 40 /\ isf >= 0.999 * 2.496 * ff.
Proof.
  intros Hf Harg.
  assert (H1 : 2.496 * ff <= isf).
  { apply (Rmult_le_reg_r (/ (2.496 * ff))).
    - apply Rinv_0_lt_compat; lra.
    - rewrite Rinv_r by lra. unfold Rdiv in Harg. lra. }
  split; [|lra].
  rewrite WSE_at.
  assert (H2 : 12 <= isf / (0.208 * ff)).
  { apply (Rmult_le_reg_r (0.208 * ff)); [lra|].
    unfold Rdiv. rewrite Rmult_assoc, Rinv_l by lra. lra. }
  assert (H3 : 40 * 0.05039 < ln (isf / (0.208 * ff))).
  { rewrite <- (ln_exp (40 * 0.05039)). apply ln_increasing; [apply exp_pos|].
    pose proof exp_2_0156_lt_12. lra. }
  unfold Rdiv at 1. rewrite Rmult_1_l.
  apply (Rmult_lt_reg_r 0.05039); [lra|].
  rewrite (Rmult_comm (/ 0.05039)), Rmult_assoc, Rinv_l by lra. lra.
Qed.

End EquivalentWind.

(** Claim C7: at every index of a batch, the equivalent wind speed is first
    [WSE = (1 / 0.05039) * ln (ISF / (0.208 * fF))]; a value that does not
    exceed 40 is kept; a value above 40 is replaced by
    [28 - (1 / 0.0818) * ln (1 - ISF / (2.496 * fF))] when [ISF] is below the
    threshold [0.999 * 2.496 * fF], and by [112.45] when [ISF] is at or above
    it; in particular [112.45] is returned whenever the argument of that
    logarithm is not positive. *)
Theorem C7_equivalent_wind_speed
    (FUELTYPE : list string) (FFMC GS FMC SFC PC PDF CC CBH ISI : list R)
    (i : nat) :
  (i < List.length FFMC)%nat ->
  let isf := JS.at_ (Slope.ISF FUELTYPE FFMC GS FMC SFC PC PDF CC CBH ISI) i in
  let ff := JS.at_ (Slope.fF FFMC) i in
  let wse := JS.at_ (Slope.WSE FUELTYPE FFMC GS FMC SFC PC PDF CC CBH ISI) i in
  let adj :=
    JS.at_ (Slope.adjustedWSE FUELTYPE FFMC GS FMC SFC PC PDF CC CBH ISI) i in
  wse = 1 / 0.05039 * ln (isf / (0.208 * ff)) /\
  (~ wse > 40 -> adj = wse) /\
  (wse > 40 -> isf < 0.999 * 2.496 * ff ->
   adj = 28 - 1 / 0.0818 * ln (1 - isf / (2.496 * ff))) /\
  (wse > 40 -> isf >= 0.999 * 2.496 * ff -> adj = 112.45) /\
  (0 < ff -> 1 - isf / (2.496 * ff) <= 0 -> adj = 112.45).
Proof.
  intros Hi isf ff wse adj.
  pose proof (adjustedWSE_at FUELTYPE FFMC GS FMC SFC PC PDF CC CBH ISI i Hi)
    as E.
  fold isf ff wse adj in E.
  assert (Hhi : wse > 40 -> isf >= 0.999 * 2.496 * ff -> adj = 112.45).
  { intros H1 H2. rewrite E. rcases; trivial; lra. }
  split; [apply WSE_at; exact Hi|].
  split; [intros H; rewrite E; rcases; trivial; lra|].
  split; [intros H1 H2; rewrite E; rcases; trivial; lra|].
  split; [exact Hhi|].
  intros Hf Harg.
  destruct (saturated_above_40 FUELTYPE FFMC GS FMC SFC PC PDF CC CBH ISI i Hi
              Hf Harg) as [H1 H2].
  now apply Hhi.
Qed.

(** Witness of claim C7: one observation of fuel type C2 on flat ground. *)
Lemma C7_equivalent_wind_speed_witness :
  let isf := JS.at_ (Slope.ISF ["C2"] [90] [0] [100] [1] [0] [0] [0] [7] [0])
                    0 in
  let ff := JS.at_ (Slope.fF [90]) 0 in
  let wse := JS.at_ (Slope.WSE ["C2"] [90] [0] [100] [1] [0] [0] [0] [7] [0])
                    0 in
  let adj :=
    JS.at_ (Slope.adjustedWSE ["C2"] [90] [0] [100] [1] [0] [0] [0] [7] [0])
           0 in
  wse = 1 / 0.05039 * ln (isf / (0.208 * ff)) /\
  (~ wse > 40 -> adj = wse) /\
  (wse > 40 -> isf < 0.999 * 2.496 * ff ->
   adj = 28 - 1 / 0.0818 * ln (1 - isf / (2.496 * ff))) /\
  (wse > 40 -> isf >= 0.999 * 2.496 * ff -> adj = 112.45) /\
  (0 < ff -> 1 - isf / (2.496 * ff) <= 0 -> adj = 112.45).
Proof.
  apply (C7_equivalent_wind_speed
           ["C2"] [90] [0] [100] [1] [0] [0] [0] [7] [0] 0).
  simpl. lia.
Defined.

(* ================================================================= *)
(** ** Slope adjustment: non-fuel observations in a batch *)

Lemma includes_In (l : list string) (s : string) :
  JS.includes l s = true <-> In s l.
Proof.
  unfold JS.includes. rewrite existsb_exists. split.
  - intros (x & Hx & E). apply String.eqb_eq in E. now subst.
  - intros H. exists s. split; [exact H | apply String.eqb_refl].
Qed.

(** One non-fuel or water observation anywhere in the batch makes every
    result of the batch absent. *)
Lemma slopeAdjustment_nonfuel
    (FUELTYPE : list string)
    (FFMC BUI WS WAZ GS SAZ FMC SFC PC PDF CC CBH ISI : list R) :
  In "NF" FUELTYPE \/ In "WA" FUELTYPE ->
  slopeAdjustment FUELTYPE FFMC BUI WS WAZ GS SAZ FMC SFC PC PDF CC CBH ISI
  = map (fun _ => mkSlopeAdjustmentResult None None) FFMC.
Proof.
  intros H. unfold slopeAdjustment, Slope.slopeAdjustment.
  rewrite <- !includes_In in H.
  destruct H as [H|H]; rewrite H; [|rewrite orb_true_r]; reflexivity.
Qed.

(** Without such an observation every result is present. *)
Lemma slopeAdjustment_fuel
    (FUELTYPE : list string)
    (FFMC BUI WS WAZ GS SAZ FMC SFC PC PDF CC CBH ISI : list R)
    (i : nat) (dflt : SlopeAdjustmentResult) :
  ~ In "NF" FUELTYPE -> ~ In "WA" FUELTYPE -> (i < List.length FFMC)%nat ->
  nth i (slopeAdjustment FUELTYPE FFMC BUI WS WAZ GS SAZ FMC SFC PC PDF CC
           CBH ISI) dflt
  = mkSlopeAdjustmentResult
      (Some (JS.at_ (Slope.WSV_v FUELTYPE FFMC WS WAZ GS SAZ FMC SFC PC PDF
                       CC CBH ISI) i))
      (Some (JS.at_ (Slope.adjustedRAZ FUELTYPE FFMC WS WAZ GS SAZ FMC SFC PC
                       PDF CC CBH ISI) i)).
Proof.
  intros H1 H2 Hi. unfold slopeAdjustment, Slope.slopeAdjustment.
  rewrite <- includes_In in H1, H2.
  apply not_true_is_false in H1, H2. rewrite H1, H2. cbn [orb].
  now rewrite (nth_imap _ _ _ 0).
Qed.

Lemma slopeAdjustment_length
    (FUELTYPE : list string)
    (FFMC BUI WS WAZ GS SAZ FMC SFC PC PDF CC CBH ISI : list R) :
  List.length (slopeAdjustment FUELTYPE FFMC BUI WS WAZ GS SAZ FMC SFC PC PDF
                 CC CBH ISI) = List.length FFMC.
Proof.
  unfold slopeAdjustment, Slope.slopeAdjustment.
  destruct (_ || _); [apply length_map | apply imap_length].
Qed.

(** Claim C9, at a batch of two observations: the result of the first
    observation, a C2 stand, is present when the second observation is C2 as
    well, and absent when the second observation is non-fuel or water, every
    input of the first observation being the same. *)
Theorem C9_batch_nonfuel :
  let run := fun ft =>
    slopeAdjustment ["C2"; ft] [90; 90] [60; 60] [10; 10] [0; 0] [0; 0]
      [0; 0] [100; 100] [1; 1] [0; 0] [0; 0] [0; 0] [7; 7] [5; 5] in
  let absent := mkSlopeAdjustmentResult None None in
  WSV (nth 0 (run "C2") absent) <> None /\
  RAZ (nth 0 (run "C2") absent) <> None /\
  nth 0 (run "NF") absent = absent /\
  nth 0 (run "WA") absent = absent.
Proof.
  intros run absent. unfold run.
  rewrite (slopeAdjustment_fuel ["C2"; "C2"]);
    [ | cbn; intuition discriminate | cbn; intuition discriminate
      | simpl; lia ].
  rewrite !slopeAdjustment_nonfuel by (cbn; tauto).
  cbn [WSV RAZ map nth]. repeat split; discriminate.
Qed.

(* ================================================================= *)
(** ** Slopecalc *)

Lemma Slopecalc_invalid
    (FUELTYPE : list string)
    (FFMC BUI WS WAZ GS SAZ FMC SFC PC PDF CC CBH ISI : list R)
    (output : string) :
  ~ In output validOutTypes ->
  Slopecalc FUELTYPE FFMC BUI WS WAZ GS SAZ FMC SFC PC PDF CC CBH ISI output
  = inl (Error ("In 'Slopecalc()', '" ++ output
                ++ "' is an invalid 'output' type.")).
Proof.
  intros H. unfold Slopecalc.
  rewrite <- includes_In in H. apply not_true_is_false in H. now rewrite H.
Qed.

(** On a batch that is not empty, a valid option returns the whole array of
    results, whichever valid option it is. *)
Lemma Slopecalc_valid
    (FUELTYPE : list string)
    (FFMC BUI WS WAZ GS SAZ FMC SFC PC PDF CC CBH ISI : list R)
    (output : string) :
  In output validOutTypes -> FFMC <> [] ->
  Slopecalc FUELTYPE FFMC BUI WS WAZ GS SAZ FMC SFC PC PDF CC CBH ISI output
  = inr (slopeAdjustment FUELTYPE FFMC BUI WS WAZ GS SAZ FMC SFC PC PDF CC
           CBH ISI).
Proof.
  intros H Hne. unfold Slopecalc.
  rewrite <- includes_In in H. rewrite H. cbn [negb].
  pose proof (slopeAdjustment_length FUELTYPE FFMC BUI WS WAZ GS SAZ FMC SFC
                PC PDF CC CBH ISI) as L.
  destruct (slopeAdjustment _ _ _ _ _ _ _ _ _ _ _ _ _ _); [|reflexivity].
  destruct FFMC; [contradiction | discriminate].
Qed.

(** Claim C10, at the empty batch: with the valid option ["RAZ"] (and with
    each of the other two) [Slopecalc] throws, although the option is
    valid. *)
Theorem C10_Slopecalc_empty_batch :
  Slopecalc [] [] [] [] [] [] [] [] [] [] [] [] [] [] "RAZ" = inl TypeError /\
  Slopecalc [] [] [] [] [] [] [] [] [] [] [] [] [] [] "WAZ" = inl TypeError /\
  Slopecalc [] [] [] [] [] [] [] [] [] [] [] [] [] [] "WSV" = inl TypeError.
Proof. repeat split. Qed.

(* ================================================================= *)
(** ** The spread-rate curves *)

Lemma Math_pow_pos (x y : R) :
  0 < x -> y <> 0 -> JS.Math_pow x y = Rpower x y.
Proof.
  intros Hx Hy. unfold JS.Math_pow.
  destruct (Req_dec_T y 0); [contradiction|].
  destruct (Rlt_dec 0 x); [reflexivity | contradiction].
Qed.

Lemma Math_pow_0 (y : R) : y <> 0 -> JS.Math_pow 0 y = 0.
Proof.
  intros Hy. unfold JS.Math_pow.
  destruct (Req_dec_T y 0); [contradiction|].
  destruct (Rlt_dec 0 0); [lra|].
  destruct (Req_dec_T 0 0); [reflexivity | lra].
Qed.

Lemma Rpower_pos (x y : R) : 0 < Rpower x y.
Proof. unfold Rpower. apply exp_pos. Qed.

Lemma curve_shape (ft : string) (x : R) :
  RoS.curve ft x = shape (RoS.coef RoS.a ft) (RoS.coef RoS.b ft)
                         (RoS.coef RoS.c0 ft) x.
Proof. reflexivity. Qed.

Lemma plantation_shape (x : R) :
  intermediateSurfaceRateOfSpreadC6 x = shape 30 0.08 3 x.
Proof.
  unfold intermediateSurfaceRateOfSpreadC6, shape.
  replace (- 0.08 * x) with (- (0.08) * x) by lra. reflexivity.
Qed.

Lemma coef_pos (ft : string) :
  In ft curved ->
  0 < RoS.coef RoS.a ft /\ 0 < RoS.coef RoS.b ft /\ 0 < RoS.coef RoS.c0 ft.
Proof.
  intros H. cbn in H. decompose [or] H; subst; try contradiction;
    unfold RoS.coef; cbn; lra.
Qed.

Section Shape.

Variables A B C : R.
Hypothesis HA : 0 < A.
Hypothesis HB : 0 < B.
Hypothesis HC : 0 < C.

Lemma shape_0 : shape A B C 0 = 0.
Proof.
  unfold shape. rewrite Rmult_0_r, exp_0.
  replace (1 - 1) with 0 by lra. rewrite Math_pow_0 by lra. lra.
Qed.

Lemma base_pos (x : R) : 0 < x -> 0 < 1 - exp (- B * x) < 1.
Proof.
  intros Hx. pose proof (exp_pos (- B * x)).
  pose proof (exp_neg_lt_1 (- B * x)). nra.
Qed.

Lemma shape_pos (x : R) : 0 < x -> 0 < shape A B C x.
Proof.
  intros Hx. unfold shape.
  rewrite Math_pow_pos; [|apply (base_pos x Hx)|lra].
  apply Rmult_lt_0_compat; [exact HA | apply Rpower_pos].
Qed.

Lemma shape_mono (x1 x2 : R) :
  0 < x1 <= x2 -> shape A B C x1 <= shape A B C x2.
Proof.
  intros [H1 H2]. unfold shape.
  pose proof (base_pos x1 H1) as [P1 _].
  assert (H3 : 0 < x2) by lra. pose proof (base_pos x2 H3) as [P2 _].
  rewrite !Math_pow_pos by lra.
  apply Rmult_le_compat_l; [lra|].
  apply Rle_Rpower_l; [lra|]. split; [exact P1|].
  pose proof (exp_mono (- B * x2) (- B * x1)). nra.
Qed.

End Shape.


(* ================================================================= *)
(** ** The floor, and a zero initial spread index *)

Lemma constrain_pos (x : R) : 0 < constrain x.
Proof. unfold constrain. rcases; lra. Qed.

Lemma constrain_id (x : R) : 0 < x -> constrain x = x.
Proof. intros H. unfold constrain. rcases; lra. Qed.

Lemma constrain_floor (x : R) : x <= 0 -> constrain x = 0.000001.
Proof. intros H. unfold constrain. rcases; lra. Qed.

Lemma curve_0 (ft : string) : In ft curved -> RoS.curve ft 0 = 0.
Proof.
  intros H. destruct (coef_pos ft H) as (_ & _ & HC).
  rewrite curve_shape. now apply shape_0.
Qed.

Lemma curve_pos (ft : string) (x : R) :
  In ft curved -> 0 < x -> 0 < RoS.curve ft x.
Proof.
  intros H Hx. destruct (coef_pos ft H) as (HA & HB & HC).
  rewrite curve_shape. now apply shape_pos.
Qed.

Lemma curve_mono (ft : string) (x1 x2 : R) :
  In ft curved -> 0 < x1 <= x2 -> RoS.curve ft x1 <= RoS.curve ft x2.
Proof.
  intros H Hx. destruct (coef_pos ft H) as (HA & HB & HC).
  rewrite !curve_shape. now apply shape_mono.
Qed.

Lemma crownRateOfSpreadC6_0 (FMC : R) : crownRateOfSpreadC6 0 FMC = 0.
Proof.
  unfold crownRateOfSpreadC6. rewrite Rmult_0_r, exp_0.
  unfold Rdiv. ring.
Qed.

Lemma rateOfSpreadC6_0 (CFB : R) : rateOfSpreadC6 0 0 CFB = 0.
Proof. unfold rateOfSpreadC6. rcases; lra. Qed.

(** With [ISI = 0] the raw spread rate and the spread rate before the floor
    are [0] for every fuel type that is not a blend. *)
Lemma rsi_zero (r : string -> R) (o : Obs) :
  In (fuel o) unblended -> isi o = 0 -> El.rsi r o = 0 /\ El.ros r o = 0.
Proof.
  destruct o as [ft x bu fm sf pc_ pd cc_ cb]; cbn [fuel isi].
  intros H Hx; subst x.
  assert (E6 : intermediateSurfaceRateOfSpreadC6 0 = 0).
  { rewrite plantation_shape. apply shape_0. lra. }
  unfold El.ros, El.rss, El.rsc, surfaceRateOfSpreadC6.
  cbn in H; decompose [or] H; subst; try contradiction;
    cbn -[RoS.curve intermediateSurfaceRateOfSpreadC6 curing buildupEffect
          crownRateOfSpreadC6 rateOfSpreadC6 El.cfb];
    rewrite ?E6, ?crownRateOfSpreadC6_0, ?curve_0 by (cbn; tauto);
    rewrite ?Rmult_0_l, ?Rmult_0_r, ?rateOfSpreadC6_0; split; reflexivity.
Qed.

(** The final spread rate is the floor of the spread rate computed before
    it. *)
Lemma rateOfSpread_constrain (p : InputParams) (n i : nat) :
  wf n p -> (i < n)%nat ->
  JS.at_ (rateOfSpread p) i = constrain (JS.at_ (RoS.ROS_v rateOfSpread p) i).
Proof.
  intros Hwf Hi. unfold rateOfSpread.
  rewrite (rateOfSpreadExtended_eq p n Hwf).
  unfold RoS.body; cbn [ROS]. unfold RoS.constrainedROS.
  rewrite at_map; [reflexivity|].
  now rewrite ROS_v_length, (ISI_length p n Hwf).
Qed.




(* ================================================================= *)
(** ** The blends M1 and M2 *)

Lemma ln_le_minus_1 (x : R) : 0 < x -> ln x <= x - 1.
Proof.
  intros H. pose proof (exp_ineq1_le (ln x)) as H1.
  rewrite exp_ln in H1 by exact H. lra.
Qed.

Lemma ln_neg (x : R) : 0 < x < 1 -> ln x < 0.
Proof. intros H. pose proof (ln_le_minus_1 x). lra. Qed.

Lemma buildupEffect_pos (ft : string) (BUI : R) : 0 < buildupEffect ft BUI.
Proof.
  unfold buildupEffect. destruct (JS.lookup BUIo ft); [|lra].
  destruct (_ && _); [apply exp_pos | lra].
Qed.

Lemma pureRateOfSpreadAt_pos (ft : string) (o : Obs) :
  0 < pureRateOfSpreadAt ft o.
Proof. unfold pureRateOfSpreadAt; cbn [El.unroll]. apply constrain_pos. Qed.

(** The spread rate of an M1 observation before the floor: the buildup effect
    of M1 on the blend of the undamped C2 and D1 rates. *)
Lemma ros_M1 (o : Obs) :
  fuel o = "M1" ->
  El.ros (fun ft => pureRateOfSpreadAt ft o) o
  = buildupEffect "M1" (bui o)
    * (pc o / 100 * pureRateOfSpreadAt "C2" o
       + (100 - pc o) / 100 * pureRateOfSpreadAt "D1" o).
Proof.
  intros E. unfold El.ros, El.rss, El.rsi, El.rsi_4, El.rsi_3, El.rsi_2,
    El.rsi_1. rewrite E. reflexivity.
Qed.

Lemma rsi_M1 (o : Obs) :
  fuel o = "M1" ->
  El.rsi (fun ft => pureRateOfSpreadAt ft o) o
  = pc o / 100 * pureRateOfSpreadAt "C2" o
    + (100 - pc o) / 100 * pureRateOfSpreadAt "D1" o.
Proof.
  intros E. unfold El.rsi, El.rsi_4, El.rsi_3, El.rsi_2, El.rsi_1.
  rewrite E. reflexivity.
Qed.

Lemma rateOfSpreadAt_ros (o : Obs) :
  rateOfSpreadAt o = constrain (El.ros (fun ft => pureRateOfSpreadAt ft o) o).
Proof. reflexivity. Qed.

Lemma buildupEffect_M1_60 :
  buildupEffect "M1" 60 = exp (50 * ln 0.8 * (1 / 60 - 1 / 50)).
Proof.
  destruct (buildupEffect_known "M1" 60 50 eq_refl) as [_ H].
  rewrite H by lra. reflexivity.
Qed.

Lemma buildupEffect_M1_60_gt : 1 + / 30 <= buildupEffect "M1" 60.
Proof.
  rewrite buildupEffect_M1_60.
  pose proof (ln_le_minus_1 0.8).
  pose proof (exp_ineq1_le (50 * ln 0.8 * (1 / 60 - 1 / 50))). lra.
Qed.



Lemma pure_call_at (p : InputParams) (n i : nat) (ft : string) :
  wf n p -> (i < n)%nat -> In ft RoS.simple ->
  JS.at_ (rateOfSpread (RoS.pure p ft)) i = pureRateOfSpreadAt ft (obs p i).
Proof.
  intros Hwf Hi Hft. rewrite <- (pure_call_stable p n ft Hwf Hft).
  apply (rec_at p n i ft Hwf Hi).
Qed.

Lemma ros_simple (o : Obs) :
  In (fuel o) RoS.simple ->
  El.ros (fun ft => pureRateOfSpreadAt ft o) o
  = buildupEffect (fuel o) (bui o) * RoS.curve (fuel o) (isi o).
Proof.
  destruct o as [ft x bu fm sf pc_ pd cc_ cb]; cbn [fuel isi bui].
  intros H. unfold El.ros, El.rss, El.rsi, El.rsi_4, El.rsi_3, El.rsi_2,
    El.rsi_1.
  cbn in H; decompose [or] H; subst; try contradiction; reflexivity.
Qed.

(** *** Bounds at [ISI = 10] and [BUI = 60] *)

Lemma exp_opp_le (u : R) : 0 <= u -> exp (- u) <= / (1 + u).
Proof.
  intros H. rewrite exp_Ropp. apply Rinv_le_contravar; [lra|].
  apply exp_ineq1_le.
Qed.

Lemma Rpower_3_2_sqr (x : R) :
  0 < x -> Rpower x 1.5 * Rpower x 1.5 = x * x * x.
Proof.
  intros H. rewrite <- Rpower_plus.
  replace (1.5 + 1.5) with (1 + 1 + 1) by lra.
  rewrite !Rpower_plus, Rpower_1 by exact H. reflexivity.
Qed.

Lemma Rpower_exponent_antitone (x y z : R) :
  0 < x <= 1 -> y <= z -> Rpower x z <= Rpower x y.
Proof.
  intros Hx Hyz. unfold Rpower. apply exp_mono.
  assert (ln x <= 0) by (pose proof (ln_le_minus_1 x); lra). nra.
Qed.

Lemma curve_C2_10_ge : 11.3 <= RoS.curve "C2" 10.
Proof.
  rewrite curve_shape. unfold shape, RoS.coef; cbn [RoS.names RoS.index_from d
    String.eqb Ascii.eqb Bool.eqb nth RoS.a RoS.b RoS.c0].
  replace (- (0.0282) * 10) with (- (0.282)) by lra.
  assert (H1 : exp (- (0.282)) <= / (1 + 0.282)) by (apply exp_opp_le; lra).
  pose proof (exp_pos (- (0.282))) as H2.
  assert (H3 : / (1 + 0.282) <= 0.7801).
  { apply (Rmult_le_reg_r (1 + 0.282)); [lra|]. rewrite Rinv_l; lra. }
  set (b := 1 - exp (- (0.282))) in *.
  assert (Hb : 0.2199 <= b < 1) by (unfold b; lra).
  rewrite Math_pow_pos by lra.
  assert (H4 : Rpower b 1.5 * Rpower b 1.5 = b * b * b)
    by (apply Rpower_3_2_sqr; lra). pose proof (Rpower_pos b 1.5) as H5.
  set (X := Rpower b 1.5) in *.
  assert (H6 : 0.2199 * 0.2199 * 0.2199 <= b * b * b).
  { assert (0.2199 * 0.2199 <= b * b) by nra. nra. }
  assert (H7 : 0.103 <= X) by nra.
  lra.
Qed.

Lemma curve_D1_10_le : 0 < RoS.curve "D1" 10 <= 3.36.
Proof.
  split; [apply curve_pos; [cbn; tauto | lra]|].
  rewrite curve_shape. unfold shape, RoS.coef; cbn [RoS.names RoS.index_from d
    String.eqb Ascii.eqb Bool.eqb nth RoS.a RoS.b RoS.c0].
  replace (- (0.0232) * 10) with (- (0.232)) by lra.
  pose proof (exp_ineq1_le (- (0.232))) as H1.
  pose proof (exp_neg_lt_1 (- (0.232))) as H2.
  set (c := 1 - exp (- (0.232))) in *.
  assert (Hc : 0 < c <= 0.232) by (unfold c; lra).
  rewrite Math_pow_pos by lra.
  assert (H3 : Rpower c 1.6 <= Rpower c 1.5)
    by (apply Rpower_exponent_antitone; lra).
  assert (H4 : Rpower c 1.5 * Rpower c 1.5 = c * c * c)
    by (apply Rpower_3_2_sqr; lra). pose proof (Rpower_pos c 1.5) as H5.
  set (Z := Rpower c 1.5) in *.
  assert (H6 : c * c * c <= 0.232 * 0.232 * 0.232).
  { assert (c * c <= 0.232 * 0.232) by nra. nra. }
  assert (H7 : Z <= 0.112) by nra.
  lra.
Qed.

Lemma buildupEffect_C2_60_le : buildupEffect "C2" 60 <= 1.
Proof.
  destruct (buildupEffect_known "C2" 60 64 eq_refl) as [_ H].
  rewrite H by lra. change (JS.get Q "C2") with 0.7.
  apply Rle_trans with (exp 0); [|rewrite exp_0; lra].
  apply exp_mono.
  assert (ln 0.7 < 0) by (apply ln_neg; lra). nra.
Qed.

Lemma buildupEffect_D1_60_le : buildupEffect "D1" 60 <= 1.0883.
Proof.
  destruct (buildupEffect_known "D1" 60 32 eq_refl) as [_ H].
  rewrite H by lra. change (JS.get Q "D1") with 0.9.
  assert (H1 : ln (/ 0.9) <= / 0.9 - 1) by (apply ln_le_minus_1; lra).
  rewrite ln_Rinv in H1 by lra.
  assert (H2 : / 0.9 <= 1.1112).
  { apply (Rmult_le_reg_r 0.9); [lra|]. rewrite Rinv_l; lra. }
  set (s := 50 * ln 0.9 * (1 / 60 - 1 / 32)).
  assert (Hs : s <= 0.0811) by (unfold s; lra).
  assert (H3 : exp s <= / (1 - s)) by (apply exp_le_inv_1m; lra).
  assert (H4 : / (1 - s) <= 1.0883).
  { apply (Rmult_le_reg_r (1 - s)); [lra|]. rewrite Rinv_l; lra. }
  lra.
Qed.

(** Claim C1 as stated fails: with [BUI = 60] the M1 result is not the
    average of the C2 and the D1 result at the same [ISI] and [BUI], the
    three fuel types having each its own buildup effect. *)
Lemma C1_average_counterexample :
  let pM := single (mkObs "M1" 10 60 100 1 50 0 0 7) in
  let pC := single (mkObs "C2" 10 60 100 1 50 0 0 7) in
  let pD := single (mkObs "D1" 10 60 100 1 50 0 0 7) in
  JS.at_ (rateOfSpread pM) 0
  <> 0.5 * JS.at_ (rateOfSpread pC) 0 + 0.5 * JS.at_ (rateOfSpread pD) 0 /\
  JS.at_ (RoS.RSS_v rateOfSpread pM) 0
  <> 0.5 * JS.at_ (RoS.RSS_v rateOfSpread pC) 0
     + 0.5 * JS.at_ (RoS.RSS_v rateOfSpread pD) 0.
Proof.
  intros pM pC pD.
  pose proof curve_C2_10_ge as Hx. pose proof curve_D1_10_le as Hy.
  pose proof buildupEffect_M1_60_gt as HM.
  pose proof buildupEffect_C2_60_le as HC.
  pose proof buildupEffect_D1_60_le as HD.
  pose proof (buildupEffect_pos "C2" 60) as HC0.
  pose proof (buildupEffect_pos "D1" 60) as HD0.
  assert (EM : El.ros (fun ft => pureRateOfSpreadAt ft (obs pM 0)) (obs pM 0)
               = buildupEffect "M1" 60
                 * (0.5 * RoS.curve "C2" 10 + 0.5 * RoS.curve "D1" 10)).
  { unfold pM. rewrite obs_single, ros_M1 by reflexivity.
    rewrite !pureRateOfSpreadAt_simple by (cbn; tauto).
    cbn [isi pc bui]. rewrite !constrain_id by lra. f_equal. lra. }
  assert (EC : El.ros (fun ft => pureRateOfSpreadAt ft (obs pC 0)) (obs pC 0)
               = buildupEffect "C2" 60 * RoS.curve "C2" 10).
  { unfold pC. rewrite obs_single, ros_simple by (cbn; tauto). reflexivity. }
  assert (ED : El.ros (fun ft => pureRateOfSpreadAt ft (obs pD 0)) (obs pD 0)
               = buildupEffect "D1" 60 * RoS.curve "D1" 10).
  { unfold pD. rewrite obs_single, ros_simple by (cbn; tauto). reflexivity. }
  set (x := RoS.curve "C2" 10) in *. set (y := RoS.curve "D1" 10) in *.
  set (bM := buildupEffect "M1" 60) in *.
  set (bC := buildupEffect "C2" 60) in *.
  set (bD := buildupEffect "D1" 60) in *.
  assert (Hgap : 0.5 * (bC * x) + 0.5 * (bD * y) < bM * (0.5 * x + 0.5 * y))
    by nra.
  assert (HCx : 0 < bC * x) by nra. assert (HDy : 0 < bD * y) by nra.
  split.
  - rewrite (rateOfSpread_at pM 1%nat 0%nat (single_wf _)),
      (rateOfSpread_at pC 1%nat 0%nat (single_wf _)),
      (rateOfSpread_at pD 1%nat 0%nat (single_wf _)) by lia.
    rewrite !rateOfSpreadAt_ros, EM, EC, ED.
    rewrite !constrain_id by nra. lra.
  - destruct (engine_at pM 1%nat 0%nat (single_wf _))
      as (_ & _ & _ & _ & E & _);
      [lia|]; cbv zeta in E; rewrite E; clear E.
    destruct (engine_at pC 1%nat 0%nat (single_wf _))
      as (_ & _ & _ & _ & E & _);
      [lia|]; cbv zeta in E; rewrite E; clear E.
    destruct (engine_at pD 1%nat 0%nat (single_wf _))
      as (_ & _ & _ & _ & E & _);
      [lia|]; cbv zeta in E; rewrite E; clear E.
    assert (R : forall o, fuel o <> "C6" ->
              El.rss (fun ft => pureRateOfSpreadAt ft o) o
              = El.ros (fun ft => pureRateOfSpreadAt ft o) o).
    { intros o Ho. unfold El.ros. apply String.eqb_neq in Ho. now rewrite Ho. }
    rewrite !R by (unfold pM, pC, pD; rewrite obs_single; discriminate).
    rewrite EM, EC, ED. lra.
Qed.

(** Claim C1, as the code has it: for an M1 observation with [PC = 50],
    [ISI = 10] and [BUI = 60] the surface spread rate, which is the [ROS]
    returned, is the buildup effect of M1 at [BUI = 60] applied to the
    average of the C2 and D1 results computed at the same [ISI] with the
    buildup effect disabled ([BUI = -1]); those two results are the raw
    curves of C2 and D1. *)
Theorem C1_blend_of_undamped_rates (p : InputParams) (n i : nat) :
  wf n p -> (i < n)%nat ->
  JS.sat (FUELTYPE p) i = "M1" -> JS.at_ (PC p) i = 50 ->
  JS.at_ (ISI p) i = 10 -> JS.at_ (BUI p) i = 60 ->
  let RSS_C2 := JS.at_ (rateOfSpread (RoS.pure p "C2")) i in
  let RSS_D1 := JS.at_ (rateOfSpread (RoS.pure p "D1")) i in
  JS.at_ (RoS.RSS_v rateOfSpread p) i
  = buildupEffect "M1" 60 * (0.5 * RSS_C2 + 0.5 * RSS_D1) /\
  JS.at_ (rateOfSpread p) i = JS.at_ (RoS.RSS_v rateOfSpread p) i /\
  RSS_C2 = RoS.curve "C2" 10 /\ RSS_D1 = RoS.curve "D1" 10 /\
  JS.sat (FUELTYPE (RoS.pure p "C2")) i = "C2" /\
  JS.sat (FUELTYPE (RoS.pure p "D1")) i = "D1" /\
  JS.at_ (BUI (RoS.pure p "C2")) i = -1 /\
  JS.at_ (BUI (RoS.pure p "D1")) i = -1.
Proof.
  intros Hwf Hi Hf Hpc Hisi Hbui RSS_C2 RSS_D1.
  pose proof curve_C2_10_ge as Hx. pose proof curve_D1_10_le as Hy.
  pose proof (buildupEffect_pos "M1" 60) as HM.
  assert (EC : RSS_C2 = RoS.curve "C2" 10).
  { unfold RSS_C2. rewrite (pure_call_at p n i "C2" Hwf Hi) by (cbn; tauto).
    rewrite pureRateOfSpreadAt_simple by (cbn; tauto).
    cbn [isi obs]. rewrite Hisi. apply constrain_id. lra. }
  assert (ED : RSS_D1 = RoS.curve "D1" 10).
  { unfold RSS_D1. rewrite (pure_call_at p n i "D1" Hwf Hi) by (cbn; tauto).
    rewrite pureRateOfSpreadAt_simple by (cbn; tauto).
    cbn [isi obs]. rewrite Hisi. apply constrain_id. lra. }
  assert (ES : JS.at_ (RoS.RSS_v rateOfSpread p) i
               = buildupEffect "M1" 60 * (0.5 * RSS_C2 + 0.5 * RSS_D1)).
  { destruct (engine_at p n i Hwf Hi) as (_ & _ & _ & _ & E & _).
    cbv zeta in E. rewrite E. unfold El.rss.
    replace (String.eqb (fuel (obs p i)) "C6") with false
      by (cbn [fuel obs]; now rewrite Hf).
    rewrite rsi_M1 by exact Hf. cbn [fuel bui pc obs].
    rewrite Hf, Hbui, Hpc. unfold RSS_C2, RSS_D1.
    rewrite !(pure_call_at p n i _ Hwf Hi) by (cbn; tauto).
    f_equal. lra. }
  pose proof (obs_pure n i p "C2" Hwf Hi) as OC.
  pose proof (obs_pure n i p "D1" Hwf Hi) as OD.
  apply (f_equal fuel) in OC as FC. apply (f_equal bui) in OC as BC.
  apply (f_equal fuel) in OD as FD. apply (f_equal bui) in OD as BD.
  cbn [fuel bui obs pure_obs] in FC, BC, FD, BD.
  repeat split; trivial.
  rewrite (rateOfSpread_constrain p n i Hwf Hi).
  assert (EV : JS.at_ (RoS.ROS_v rateOfSpread p) i
               = JS.at_ (RoS.RSS_v rateOfSpread p) i).
  { unfold RoS.ROS_v.
    rewrite at_imap by now rewrite RSI_v_length, (ISI_length p n Hwf).
    now rewrite Hf. }
  rewrite EV, ES, EC, ED. apply constrain_id. nra.
Qed.

(** Witness of claim C1: a batch of one M1 observation. *)
Lemma C1_blend_of_undamped_rates_witness :
  let p := single (mkObs "M1" 10 60 100 1 50 0 0 7) in
  JS.at_ (RoS.RSS_v rateOfSpread p) 0
  = buildupEffect "M1" 60
    * (0.5 * JS.at_ (rateOfSpread (RoS.pure p "C2")) 0
       + 0.5 * JS.at_ (rateOfSpread (RoS.pure p "D1")) 0) /\
  JS.at_ (rateOfSpread p) 0 = JS.at_ (RoS.RSS_v rateOfSpread p) 0.
Proof.
  intros p.
  destruct (C1_blend_of_undamped_rates p 1%nat 0%nat) as (H1 & H2 & _);
    try reflexivity; [apply single_wf | lia |].
  split; assumption.
Defined.


(* ================================================================= *)
(** ** The spread rate as a function of the initial spread index *)

(** The floor keeps the order of two values that are both positive or both
    at or below zero. *)
Lemma constrain_scaled_mono (k x1 x2 : R) :
  0 < k -> 0 < x1 <= x2 \/ (x1 <= 0 /\ x2 <= 0) ->
  constrain (k * x1) <= constrain (k * x2).
Proof.
  intros Hk [H|H].
  - rewrite !constrain_id by nra. nra.
  - rewrite !constrain_floor by nra. lra.
Qed.

(** The C6 model: the final rate is at least the surface rate, and it keeps
    the order of two observations whose surface and crown rates are
    ordered. *)
Lemma rateOfSpreadC6_ge (RSC RSS RSO : R) :
  RSS <= rateOfSpreadC6 RSC RSS (crownFractionBurnedC6 RSC RSS RSO).
Proof.
  unfold rateOfSpreadC6.
  destruct (Rlt_dec RSS RSC) as [H|H].
  - replace (RSC >? RSS) with true by (rcases; trivial; lra).
    unfold crownFractionBurnedC6.
    destruct ((RSC >? RSS) && (RSS >? RSO)).
    + pose proof (crownFractionBurned_range RSS RSO). nra.
    + lra.
  - replace (RSC >? RSS) with false by (rcases; trivial; lra). lra.
Qed.

Lemma rateOfSpreadC6_crown (RSC RSS RSO : R) :
  RSC > RSS ->
  rateOfSpreadC6 RSC RSS (crownFractionBurnedC6 RSC RSS RSO)
  = RSS + crownFractionBurned RSS RSO * (RSC - RSS).
Proof.
  intros H. unfold rateOfSpreadC6, crownFractionBurnedC6.
  replace (RSC >? RSS) with true by (rcases; trivial; lra). cbn [andb].
  destruct (Rlt_dec RSO RSS) as [H1|H1].
  - replace (RSS >? RSO) with true by (rcases; trivial; lra). reflexivity.
  - replace (RSS >? RSO) with false by (rcases; trivial; lra).
    rewrite crownFractionBurned_le by lra. reflexivity.
Qed.

Lemma rateOfSpreadC6_surface (RSC RSS RSO : R) :
  ~ RSC > RSS ->
  rateOfSpreadC6 RSC RSS (crownFractionBurnedC6 RSC RSS RSO) = RSS.
Proof.
  intros H. unfold rateOfSpreadC6.
  replace (RSC >? RSS) with false by (rcases; trivial; lra). reflexivity.
Qed.

Lemma rateOfSpreadC6_mono (C1 C2 S1 S2 RSO : R) :
  S1 <= S2 -> C1 <= C2 \/ (C1 <= S1 /\ C2 <= S2) ->
  rateOfSpreadC6 C1 S1 (crownFractionBurnedC6 C1 S1 RSO)
  <= rateOfSpreadC6 C2 S2 (crownFractionBurnedC6 C2 S2 RSO).
Proof.
  intros HS HC.
  pose proof (rateOfSpreadC6_ge C2 S2 RSO) as G2.
  destruct (Rlt_dec S1 C1) as [H1|H1].
  - destruct HC as [HC|HC]; [|lra].
    rewrite (rateOfSpreadC6_crown C1 S1) by lra.
    pose proof (crownFractionBurned_range S1 RSO) as R1.
    destruct (Rlt_dec S2 C2) as [H2|H2].
    + rewrite (rateOfSpreadC6_crown C2 S2) by lra.
      pose proof (crownFractionBurned_range S2 RSO) as R2.
      pose proof (crownFractionBurned_mono RSO S1 S2 HS) as M.
      set (f1 := crownFractionBurned S1 RSO) in *.
      set (f2 := crownFractionBurned S2 RSO) in *.
      assert (0 <= (f2 - f1) * (C2 - S2)) by nra.
      assert (0 <= (1 - f1) * (S2 - S1)) by nra.
      assert (0 <= f1 * (C2 - C1)) by nra.
      nra.
    + rewrite (rateOfSpreadC6_surface C2 S2) by lra. nra.
  - rewrite (rateOfSpreadC6_surface C1 S1) by lra. lra.
Qed.

Lemma crown_base_pos (x : R) : 0 < x -> 0 < 1 - exp (- 0.0497 * x) < 1.
Proof.
  intros Hx. pose proof (exp_pos (- 0.0497 * x)).
  pose proof (exp_neg_lt_1 (- 0.0497 * x)). nra.
Qed.

(** The crown rate of C6 at two indices: ordered when the foliar moisture
    effect is not negative, and below zero at both otherwise. *)
Lemma crownRateOfSpreadC6_order (x1 x2 FMC : R) :
  0 < x1 <= x2 ->
  crownRateOfSpreadC6 x1 FMC <= crownRateOfSpreadC6 x2 FMC \/
  (crownRateOfSpreadC6 x1 FMC <= 0 /\ crownRateOfSpreadC6 x2 FMC <= 0).
Proof.
  intros [H1 H2]. unfold crownRateOfSpreadC6. cbv zeta.
  set (FME := JS.Math_pow (1.5 - 0.00275 * FMC) 4 / (460 + 25.9 * FMC) * 1000).
  pose proof (crown_base_pos x1 H1) as B1.
  assert (H3 : 0 < x2) by lra. pose proof (crown_base_pos x2 H3) as B2.
  pose proof (exp_mono (- 0.0497 * x2) (- 0.0497 * x1)) as M.
  set (g1 := 1 - exp (- 0.0497 * x1)) in *.
  set (g2 := 1 - exp (- 0.0497 * x2)) in *.
  assert (G : g1 <= g2) by (unfold g1, g2; nra).
  clearbody FME g1 g2. clear M.
  destruct (Rle_dec 0 FME) as [HF|HF].
  - left. assert (0 <= (g2 - g1) * FME) by nra. lra.
  - right. assert (g1 * FME <= 0) by nra. assert (g2 * FME <= 0) by nra.
    lra.
Qed.

Lemma simple_curved (ft : string) : In ft RoS.simple -> In ft curved.
Proof. cbn. tauto. Qed.

Lemma grass_curved (ft : string) : In ft RoS.grass -> In ft curved.
Proof. cbn. tauto. Qed.

Lemma pure_rate_curve (ft : string) (x : R) (o : Obs) :
  In ft RoS.simple -> 0 < x ->
  pureRateOfSpreadAt ft (set_isi x o) = RoS.curve ft x.
Proof.
  intros H Hx. rewrite pureRateOfSpreadAt_simple by exact H.
  cbn [isi set_isi]. apply constrain_id.
  apply curve_pos; [now apply simple_curved | exact Hx].
Qed.

(** The raw spread rate of a fuel type other than C6 at two indices
    [0 < x1 <= x2]: positive and ordered, or at or below zero at both. *)
Lemma rsi_order (o : Obs) (x1 x2 : R) :
  0 <= pc o <= 100 -> 0 <= pdf o <= 100 -> 0 < x1 <= x2 ->
  let r := fun x ft => pureRateOfSpreadAt ft (set_isi x o) in
  0 < El.rsi_4 (r x1) (set_isi x1 o) <= El.rsi_4 (r x2) (set_isi x2 o) \/
  (El.rsi_4 (r x1) (set_isi x1 o) <= 0 /\
   El.rsi_4 (r x2) (set_isi x2 o) <= 0).
Proof.
  intros Hpc Hpd Hx. cbv zeta.
  assert (Hx2 : 0 < x2) by lra. destruct Hx as [Hx1 Hx].
  assert (P : forall g, In g curved ->
            0 < RoS.curve g x1 <= RoS.curve g x2).
  { intros g Hg. split; [now apply curve_pos | now apply curve_mono]. }
  assert (RC : forall y, 0 < y ->
             pureRateOfSpreadAt "C2" (set_isi y o) = RoS.curve "C2" y).
  { intros y Hy. apply pure_rate_curve; [cbn; tauto | exact Hy]. }
  assert (RD : forall y, 0 < y ->
             pureRateOfSpreadAt "D1" (set_isi y o) = RoS.curve "D1" y).
  { intros y Hy. apply pure_rate_curve; [cbn; tauto | exact Hy]. }
  pose proof (P "C2" ltac:(cbn; tauto)) as PC2.
  pose proof (P "D1" ltac:(cbn; tauto)) as PD1.
  pose proof (P "M3" ltac:(cbn; tauto)) as PM3.
  pose proof (P "M4" ltac:(cbn; tauto)) as PM4.
  unfold El.rsi_4, El.rsi_3, El.rsi_2, El.rsi_1.
  cbn [fuel isi pc pdf cc set_isi].
  rewrite !RC, !RD by assumption.
  destruct o as [ft x bu fm sf pc_ pd cc_ cb]; cbn [fuel pc pdf cc] in *.
  destruct (JS.includes RoS.grass ft) eqn:Eg.
  { apply includes_In, grass_curved in Eg. pose proof (P ft Eg) as Pg.
    destruct (Rlt_dec 0 (curing cc_)); [left | right]; nra. }
  destruct (String.eqb ft "M4"); [left; nra|].
  destruct (String.eqb ft "M3"); [left; nra|].
  destruct (JS.includes RoS.simple ft) eqn:Es.
  { apply includes_In, simple_curved in Es. left. now apply P. }
  destruct (String.eqb ft "M1"); [left; nra|].
  destruct (String.eqb ft "M2"); [left; nra|].
  right. lra.
Qed.

(** For a positive initial spread index the spread rate of an observation
    does not decrease when the index grows, the other eight values being the
    same. *)
Lemma rateOfSpreadAt_mono (o : Obs) (x1 x2 : R) :
  0 <= pc o <= 100 -> 0 <= pdf o <= 100 -> 0 < x1 <= x2 ->
  rateOfSpreadAt (set_isi x1 o) <= rateOfSpreadAt (set_isi x2 o).
Proof.
  intros Hpc Hpd Hx.
  pose proof (rsi_order o x1 x2 Hpc Hpd Hx) as Hr. cbv zeta in Hr.
  rewrite !rateOfSpreadAt_ros.
  unfold El.ros, El.cfb, El.rss, El.rsc, El.rso, El.csi, El.rsi.
  cbn [fuel isi bui fmc sfc cbh set_isi].
  destruct (String.eqb (fuel o) "C6").
  - assert (Hx2 : 0 < x2) by lra.
    assert (S : 0 < surfaceRateOfSpreadC6
                      (intermediateSurfaceRateOfSpreadC6 x1) (bui o)
                <= surfaceRateOfSpreadC6
                     (intermediateSurfaceRateOfSpreadC6 x2) (bui o)).
    { unfold surfaceRateOfSpreadC6. rewrite !plantation_shape.
      pose proof (buildupEffect_pos "C6" (bui o)).
      pose proof (shape_pos 30 0.08 3 ltac:(lra) ltac:(lra) ltac:(lra) x1
                    ltac:(lra)).
      pose proof (shape_mono 30 0.08 3 ltac:(lra) ltac:(lra) ltac:(lra) x1 x2
                    Hx).
      nra. }
    set (S1 := surfaceRateOfSpreadC6
                 (intermediateSurfaceRateOfSpreadC6 x1) (bui o)) in *.
    set (S2 := surfaceRateOfSpreadC6
                 (intermediateSurfaceRateOfSpreadC6 x2) (bui o)) in *.
    set (RSO := surfaceFireRateOfSpread _ _).
    pose proof (rateOfSpreadC6_ge (crownRateOfSpreadC6 x1 (fmc o)) S1 RSO).
    pose proof (rateOfSpreadC6_ge (crownRateOfSpreadC6 x2 (fmc o)) S2 RSO).
    rewrite !constrain_id by lra.
    apply rateOfSpreadC6_mono; [lra|].
    destruct (crownRateOfSpreadC6_order x1 x2 (fmc o) Hx) as [H1|H1];
      [left; exact H1 | right; lra].
  - apply constrain_scaled_mono; [apply buildupEffect_pos | exact Hr].
Qed.

(** Claim C5 as stated fails at the floor: with [ISI = 0] the engine returns
    [0.000001], and with the larger [ISI = 0.0001] it returns less, the other
    inputs being the same. *)
Lemma C5_floor_counterexample :
  let p1 := single (mkObs "C2" 0 60 100 1 0 0 0 7) in
  let p2 := single (mkObs "C2" 0.0001 60 100 1 0 0 0 7) in
  JS.at_ (ISI p1) 0 <= JS.at_ (ISI p2) 0 /\
  JS.at_ (rateOfSpread p2) 0 < JS.at_ (rateOfSpread p1) 0.
Proof.
  intros p1 p2. split; [cbn; lra|].
  rewrite (rateOfSpread_at p1 1%nat 0%nat (single_wf _)),
    (rateOfSpread_at p2 1%nat 0%nat (single_wf _)) by lia.
  unfold p1, p2. rewrite !obs_single, !rateOfSpreadAt_ros.
  rewrite !ros_simple by (cbn; tauto). cbn [fuel isi bui].
  rewrite curve_0 by (cbn; tauto). rewrite Rmult_0_r.
  rewrite (constrain_floor 0) by lra.
  pose proof buildupEffect_C2_60_le as HB.
  pose proof (buildupEffect_pos "C2" 60) as HB0.
  assert (HC : 0 < RoS.curve "C2" 0.0001 <= 0.00000055).
  { split; [apply curve_pos; [cbn; tauto | lra]|].
    rewrite curve_shape. unfold shape, RoS.coef;
      cbn [RoS.names RoS.index_from d String.eqb Ascii.eqb Bool.eqb nth
           RoS.a RoS.b RoS.c0].
    replace (- (0.0282) * 0.0001) with (- (0.00000282)) by lra.
    pose proof (exp_ineq1_le (- (0.00000282))) as H1.
    pose proof (exp_neg_lt_1 (- (0.00000282))) as H2.
    set (c := 1 - exp (- (0.00000282))) in *.
    assert (Hc : 0 < c <= 0.00000282) by (unfold c; lra).
    rewrite Math_pow_pos by lra.
    assert (H4 : Rpower c 1.5 * Rpower c 1.5 = c * c * c)
      by (apply Rpower_3_2_sqr; lra).
    pose proof (Rpower_pos c 1.5) as H5.
    set (Z := Rpower c 1.5) in *.
    assert (H6 : c * c * c <= 0.00000282 * 0.00000282 * 0.00000282).
    { assert (c * c <= 0.00000282 * 0.00000282) by nra. nra. }
    assert (H7 : Z <= 0.000000005) by nra.
    lra. }
  rewrite constrain_id by nra. nra.
Qed.

(** *** When no floor fires *)

Ltac not_this_key H :=
  match goal with
  | |- context [String.eqb ?s ?k] =>
      destruct (String.eqb_spec s k) as [?E|_];
      [exfalso; apply H; rewrite E; cbn; tauto|]
  end.

Lemma BUIo_unknown (ft : string) : ~ In ft d -> JS.lookup BUIo ft = None.
Proof.
  intros H. unfold BUIo; cbn [JS.lookup].
  repeat not_this_key H. reflexivity.
Qed.

Lemma buildupEffect_unknown (ft : string) (BUI : R) :
  ~ In ft d -> buildupEffect ft BUI = 1.
Proof. intros H. unfold buildupEffect. now rewrite BUIo_unknown. Qed.

(** The raw spread rate of a fuel type that is not one of the seventeen keeps
    its initial value [-1]. *)
Lemma rsi_unknown (r : string -> R) (o : Obs) :
  ~ In (fuel o) d -> El.rsi r o = -1 /\ El.ros r o = -1.
Proof.
  intros H. unfold El.ros, El.rss.
  rewrite buildupEffect_unknown by exact H.
  unfold El.rsi, El.rsi_4, El.rsi_3, El.rsi_2, El.rsi_1, RoS.simple,
    RoS.grass, JS.includes; cbn [existsb].
  repeat not_this_key H. cbn [orb]. split; lra.
Qed.

(** The spread rate before the floor, at one index. *)
Lemma raw_at (p : InputParams) (n i : nat) :
  wf n p -> (i < n)%nat ->
  JS.at_ (RoS.ROS_v rateOfSpread p) i
  = El.ros (fun ft => pureRateOfSpreadAt ft (obs p i)) (obs p i).
Proof.
  intros Hwf Hi. rewrite (ROS_v_at rateOfSpread p n i Hwf Hi).
  pose proof (pure_call_at p n i "C2" Hwf Hi ltac:(cbn; tauto)) as E2.
  pose proof (pure_call_at p n i "D1" Hwf Hi ltac:(cbn; tauto)) as E1.
  destruct (constrained_ext
              (fun ft => JS.at_ (rateOfSpread (RoS.pure p ft)) i)
              (fun ft => pureRateOfSpreadAt ft (obs p i)) (obs p i) E2 E1)
    as (_ & Hc & Hs & _).
  unfold El.ros. now rewrite Hc, Hs.
Qed.

(** The spread rate before the floor in the call the engine makes on pure
    [ft] fuel, for a fuel type [ft] of the simple kind: the curve of [ft]. *)
Lemma raw_pure_at (p : InputParams) (n i : nat) (ft : string) :
  wf n p -> (i < n)%nat -> In ft RoS.simple ->
  JS.at_ (RoS.ROS_v rateOfSpread (RoS.pure p ft)) i
  = RoS.curve ft (JS.at_ (ISI p) i).
Proof.
  intros Hwf Hi Hft.
  rewrite (raw_at _ n i (pure_wf n p ft Hwf) Hi).
  rewrite (obs_pure n i p ft Hwf Hi).
  rewrite ros_simple by exact Hft.
  cbn [fuel isi bui pure_obs obs].
  rewrite buildupEffect_disabled. apply Rmult_1_l.
Qed.

Lemma d_cases (ft : string) :
  In ft unblended \/ In "D1" (components ft) \/ ~ In ft d.
Proof.
  destruct (in_dec string_dec ft d) as [H|H]; [|tauto].
  cbn in H. decompose [or] H; subst; try contradiction;
    try (left; cbn; tauto); right; left; cbn; tauto.
Qed.

(** When no floor fires, the initial spread index is not [0]: at [0] the
    spread rate before the floor is [0] for a fuel type that is not a blend,
    and so is that of D1, which every blend calls. *)
Lemma no_floor_positive_ISI (p : InputParams) (n i : nat) :
  wf n p -> (i < n)%nat ->
  0 <= JS.at_ (ISI p) i ->
  0 < JS.at_ (RoS.ROS_v rateOfSpread p) i ->
  (forall g, In g (components (JS.sat (FUELTYPE p) i)) ->
     0 < JS.at_ (RoS.ROS_v rateOfSpread (RoS.pure p g)) i) ->
  0 < JS.at_ (ISI p) i.
Proof.
  intros Hwf Hi H0 Hraw Hcomp.
  destruct H0 as [H0|H0]; [exact H0 | exfalso].
  rewrite (raw_at p n i Hwf Hi) in Hraw.
  destruct (d_cases (JS.sat (FUELTYPE p) i)) as [U | [B | N]].
  - destruct (rsi_zero (fun ft => pureRateOfSpreadAt ft (obs p i)) (obs p i))
      as [_ E]; [exact U | now symmetry |]. lra.
  - specialize (Hcomp "D1" B).
    rewrite (raw_pure_at p n i "D1" Hwf Hi) in Hcomp by (cbn; tauto).
    rewrite <- H0, curve_0 in Hcomp by (cbn; tauto). lra.
  - destruct (rsi_unknown (fun ft => pureRateOfSpreadAt ft (obs p i))
                (obs p i) N) as [_ E]. lra.
Qed.

(** The percentages are read for the blends only: [PC] for M1 and M2, [PDF]
    for M3 and M4. *)
Lemma rateOfSpreadAt_percent (ft : string) (x bu fm sf p1 q1 p2 q2 c h : R) :
  (In ft ["M1"; "M2"] -> p1 = p2) -> (In ft ["M3"; "M4"] -> q1 = q2) ->
  rateOfSpreadAt (mkObs ft x bu fm sf p1 q1 c h)
  = rateOfSpreadAt (mkObs ft x bu fm sf p2 q2 c h).
Proof.
  intros Hp Hq. rewrite !rateOfSpreadAt_ros. f_equal.
  unfold El.ros, El.cfb, El.rss, El.rsc, El.rso, El.csi, El.rsi, El.rsi_4,
    El.rsi_3, El.rsi_2, El.rsi_1.
  rewrite !pureRateOfSpreadAt_simple by (cbn; tauto).
  cbn [fuel isi bui fmc sfc pc pdf cc cbh].
  destruct (string_dec ft "M1") as [->|N1];
    [rewrite Hp by (cbn; tauto); reflexivity|].
  destruct (string_dec ft "M2") as [->|N2];
    [rewrite Hp by (cbn; tauto); reflexivity|].
  destruct (string_dec ft "M3") as [->|N3];
    [rewrite Hq by (cbn; tauto); reflexivity|].
  destruct (string_dec ft "M4") as [->|N4];
    [rewrite Hq by (cbn; tauto); reflexivity|].
  apply String.eqb_neq in N1, N2, N3, N4. rewrite N1, N2, N3, N4.
  reflexivity.
Qed.

(** [rateOfSpreadAt_mono], the percentages being constrained where they are
    read. *)
Lemma rateOfSpreadAt_mono_read (o : Obs) (x1 x2 : R) :
  (In (fuel o) ["M1"; "M2"] -> 0 <= pc o <= 100) ->
  (In (fuel o) ["M3"; "M4"] -> 0 <= pdf o <= 100) ->
  0 < x1 <= x2 ->
  rateOfSpreadAt (set_isi x1 o) <= rateOfSpreadAt (set_isi x2 o).
Proof.
  destruct o as [ft x bu fm sf p q c h]; unfold set_isi;
    cbn [fuel isi bui fmc sfc pc pdf cc cbh].
  intros Hp Hq Hx.
  set (p' := if in_dec string_dec ft ["M1"; "M2"] then p else 0).
  set (q' := if in_dec string_dec ft ["M3"; "M4"] then q else 0).
  assert (Ep : In ft ["M1"; "M2"] -> p = p')
    by (intros H; unfold p';
        destruct (in_dec string_dec ft ["M1"; "M2"]); tauto).
  assert (Eq : In ft ["M3"; "M4"] -> q = q')
    by (intros H; unfold q';
        destruct (in_dec string_dec ft ["M3"; "M4"]); tauto).
  rewrite (rateOfSpreadAt_percent ft x1 bu fm sf p q p' q' c h Ep Eq),
    (rateOfSpreadAt_percent ft x2 bu fm sf p q p' q' c h Ep Eq).
  apply (rateOfSpreadAt_mono (mkObs ft x bu fm sf p' q' c h) x1 x2);
    cbn [pc pdf]; trivial.
  - unfold p'. destruct (in_dec string_dec ft ["M1"; "M2"]); [auto | lra].
  - unfold q'. destruct (in_dec string_dec ft ["M3"; "M4"]); [auto | lra].
Qed.

(** Claim C5, as the code has it.  At an index of two batches that differ
    there in [ISI] only, [0 <= ISI1 <= ISI2], the [ROS] returned at [ISI1] is
    at most the one returned at [ISI2] when no floor fires at [ISI1]: the
    spread rate before the floor is positive there and, for a blend, so is
    the spread rate before the floor in each call the engine makes on a
    component.  The percentages are between 0 and 100 where they are read
    ([PC] for M1 and M2, [PDF] for M3 and M4), and a C6 observation does not
    crown at [ISI1] (its crown fraction burned is [0] there).  The proof
    does not use the last condition: over the reals a C6 observation that
    crowns keeps the order too ([rateOfSpreadAt_mono]); the condition is
    there for the last digit of the sum of Eq. 65 in double precision
    ([rateOfSpreadC6_last_digit]). *)
Theorem C5_monotone_above_the_floor (p1 p2 : InputParams) (n i : nat) :
  wf n p1 -> wf n p2 -> (i < n)%nat ->
  obs p2 i = set_isi (JS.at_ (ISI p2) i) (obs p1 i) ->
  (In (JS.sat (FUELTYPE p1) i) ["M1"; "M2"] ->
     0 <= JS.at_ (PC p1) i <= 100) ->
  (In (JS.sat (FUELTYPE p1) i) ["M3"; "M4"] ->
     0 <= JS.at_ (PDF p1) i <= 100) ->
  (JS.sat (FUELTYPE p1) i = "C6" ->
     JS.at_ (CFB (rateOfSpreadExtended p1)) i = 0) ->
  0 <= JS.at_ (ISI p1) i <= JS.at_ (ISI p2) i ->
  0 < JS.at_ (RoS.ROS_v rateOfSpread p1) i ->
  (forall g, In g (components (JS.sat (FUELTYPE p1) i)) ->
     0 < JS.at_ (RoS.ROS_v rateOfSpread (RoS.pure p1 g)) i) ->
  JS.at_ (rateOfSpread p1) i <= JS.at_ (rateOfSpread p2) i.
Proof.
  intros Hwf1 Hwf2 Hi Ho Hpc Hpd _ [H0 Hx] Hraw Hcomp.
  pose proof (no_floor_positive_ISI p1 n i Hwf1 Hi H0 Hraw Hcomp) as Hpos.
  rewrite (rateOfSpread_at p1 n i Hwf1 Hi), (rateOfSpread_at p2 n i Hwf2 Hi).
  rewrite Ho.
  replace (obs p1 i) with (set_isi (JS.at_ (ISI p1) i) (obs p1 i)) at 1
    by reflexivity.
  apply rateOfSpreadAt_mono_read; trivial. split; assumption.
Qed.

(** The spread rate of a C6 observation before the floor. *)
Lemma ros_C6 (r : string -> R) (o : Obs) :
  fuel o = "C6" ->
  let RSC := crownRateOfSpreadC6 (isi o) (fmc o) in
  let RSS := surfaceRateOfSpreadC6
               (intermediateSurfaceRateOfSpreadC6 (isi o)) (bui o) in
  let RSO := surfaceFireRateOfSpread
               (criticalSurfaceIntensity (fmc o) (cbh o)) (sfc o) in
  El.cfb r o = crownFractionBurnedC6 RSC RSS RSO /\
  El.ros r o = rateOfSpreadC6 RSC RSS (crownFractionBurnedC6 RSC RSS RSO).
Proof.
  intros E. unfold El.ros, El.cfb, El.rss, El.rsc, El.rso, El.csi, El.rsi.
  rewrite E. split; reflexivity.
Qed.

(** The spread rate of an M3 observation before the floor: the buildup
    effect of M3 on the blend of its own curve and the undamped D1 rate. *)
Lemma ros_M3 (o : Obs) :
  fuel o = "M3" ->
  El.ros (fun ft => pureRateOfSpreadAt ft o) o
  = buildupEffect "M3" (bui o)
    * (pdf o / 100 * RoS.curve "M3" (isi o)
       + (1 - pdf o / 100) * pureRateOfSpreadAt "D1" o).
Proof.
  intros E. unfold El.ros, El.rss, El.rsi, El.rsi_4, El.rsi_3, El.rsi_2,
    El.rsi_1. rewrite E. reflexivity.
Qed.

Section ShapeBounds.

Variables A B C : R.
Hypothesis HA : 0 < A.
Hypothesis HB : 0 < B.
Hypothesis HC : 0 < C.

(** The curve stays below its ceiling [A] ... *)
Lemma shape_le (x : R) : 0 < x -> shape A B C x <= A.
Proof.
  intros Hx. unfold shape.
  pose proof (base_pos B HB x Hx) as Hb.
  rewrite Math_pow_pos by lra.
  pose proof (Rpower_exponent_antitone (1 - exp (- B * x)) 0 C
                ltac:(lra) ltac:(lra)) as H.
  rewrite Rpower_O in H by lra. nra.
Qed.

(** ... below the curve of exponent [1], when [C] is at least [1] ... *)
Lemma shape_le_linear (x : R) :
  1 <= C -> 0 < x -> shape A B C x <= A * (1 - exp (- B * x)).
Proof.
  intros H1 Hx. unfold shape.
  pose proof (base_pos B HB x Hx) as Hb.
  rewrite Math_pow_pos by lra.
  pose proof (Rpower_exponent_antitone (1 - exp (- B * x)) 1 C
                ltac:(lra) H1) as H.
  rewrite Rpower_1 in H by lra. nra.
Qed.

(** ... and, when [C] is at most [2], within [2 * A * exp (- B * x)] of the
    ceiling. *)
Lemma shape_ge_linear (x : R) :
  C <= 2 -> 0 < x -> A * (1 - 2 * exp (- B * x)) <= shape A B C x.
Proof.
  intros H2 Hx. unfold shape.
  pose proof (base_pos B HB x Hx) as Hb.
  rewrite Math_pow_pos by lra.
  pose proof (Rpower_exponent_antitone (1 - exp (- B * x)) C 2
                ltac:(lra) H2) as H.
  replace 2 with (1 + 1) in H at 1 by lra.
  rewrite Rpower_plus, Rpower_1 in H by lra.
  set (e := exp (- B * x)) in *. nra.
Qed.

End ShapeBounds.

(** The curves of C2, D1 and M3 with their parameters. *)
Lemma curve_C2 (x : R) : RoS.curve "C2" x = shape 110 0.0282 1.5 x.
Proof. reflexivity. Qed.

Lemma curve_D1 (x : R) : RoS.curve "D1" x = shape 30 0.0232 1.6 x.
Proof. reflexivity. Qed.

Lemma curve_M3 (x : R) : RoS.curve "M3" x = shape 120 0.0572 1.4 x.
Proof. reflexivity. Qed.

Lemma exp_opp_le_4 (u : R) :
  0 <= u -> exp (- (u + u + u + u)) <= / (1 + u) * / (1 + u) * / (1 + u) * / (1 + u).
Proof.
  intros H.
  replace (- (u + u + u + u)) with (- u + - u + - u + - u) by lra.
  rewrite !exp_plus.
  pose proof (exp_opp_le u H) as H1. pose proof (exp_pos (- u)) as H2.
  assert (H3 : 0 < / (1 + u)) by (apply Rinv_0_lt_compat; lra).
  set (e := exp (- u)) in *. set (v := / (1 + u)) in *.
  assert (e * e <= v * v) by nra.
  assert (e * e * e <= v * v * v) by nra.
  nra.
Qed.

Lemma buildupEffect_0 (ft : string) : buildupEffect ft 0 = 1.
Proof.
  unfold buildupEffect. destruct (JS.lookup BUIo ft); [|reflexivity].
  rcases; try reflexivity; lra.
Qed.

(** A C6 observation with little surface fuel: the surface rate stays below
    [30] and the critical surface rate is above it. *)
Lemma surface_fire_C6 (x : R) :
  0 < x ->
  let RSS := surfaceRateOfSpreadC6 (intermediateSurfaceRateOfSpreadC6 x) 0 in
  let RSO := surfaceFireRateOfSpread (criticalSurfaceIntensity 100 7) 0.001 in
  0 < RSS <= 30 /\ 30 <= RSO.
Proof.
  intros Hx RSS RSO. split.
  - unfold RSS, surfaceRateOfSpreadC6.
    rewrite buildupEffect_0, plantation_shape, Rmult_1_r.
    split; [apply shape_pos; lra | apply shape_le; lra].
  - unfold RSO, surfaceFireRateOfSpread, criticalSurfaceIntensity.
    rewrite !Math_pow_pos by lra.
    pose proof (Rle_Rpower 7 1 1.5 ltac:(lra) ltac:(lra)) as H1.
    pose proof (Rle_Rpower (460 + 25.9 * 100) 1 1.5 ltac:(lra) ltac:(lra))
      as H2.
    rewrite Rpower_1 in H1, H2 by lra.
    set (u := Rpower 7 1.5) in *.
    set (v := Rpower (460 + 25.9 * 100) 1.5) in *.
    assert (7 * 3050 <= u * v) by nra.
    apply Rmult_le_reg_r with (300 * 0.001); [lra|].
    unfold Rdiv. rewrite Rmult_assoc, Rinv_l by lra. lra.
Qed.

(** Witness of claim C5: an M1 observation, and a C6 observation that does
    not crown, at [ISI = 5] and [ISI = 10]; no floor fires at [ISI = 5]. *)
Lemma C5_monotone_above_the_floor_witness :
  JS.at_ (rateOfSpread (single (mkObs "M1" 5 60 100 1 50 0 0 7))) 0
  <= JS.at_ (rateOfSpread (single (mkObs "M1" 10 60 100 1 50 0 0 7))) 0 /\
  JS.at_ (rateOfSpread (single (mkObs "C6" 5 0 100 0.001 0 0 0 7))) 0
  <= JS.at_ (rateOfSpread (single (mkObs "C6" 10 0 100 0.001 0 0 0 7))) 0.
Proof.
  split.
  - apply (C5_monotone_above_the_floor _ _ 1%nat 0%nat);
      try apply single_wf; try reflexivity; try lia; try (cbn; lra);
      try (intros _; cbn; lra); try discriminate.
    + rewrite (raw_at _ 1%nat 0%nat (single_wf _)) by lia.
      rewrite obs_single, ros_M1 by reflexivity.
      cbn [pc bui].
      pose proof (buildupEffect_pos "M1" 60).
      pose proof (pureRateOfSpreadAt_pos "C2"
                    (mkObs "M1" 5 60 100 1 50 0 0 7)).
      pose proof (pureRateOfSpreadAt_pos "D1"
                    (mkObs "M1" 5 60 100 1 50 0 0 7)).
      apply Rmult_lt_0_compat; [assumption | lra].
    + intros g Hg.
      assert (Hs : In g RoS.simple) by (cbn in Hg; cbn; tauto).
      rewrite (raw_pure_at _ 1%nat 0%nat g (single_wf _))
        by (lia || exact Hs).
      apply curve_pos; [now apply simple_curved | cbn; lra].
  - destruct (surface_fire_C6 5 ltac:(lra)) as [HS HO]. cbv zeta in HS, HO.
    destruct (ros_C6 (fun ft => pureRateOfSpreadAt ft
                                  (mkObs "C6" 5 0 100 0.001 0 0 0 7))
                (mkObs "C6" 5 0 100 0.001 0 0 0 7) eq_refl) as [Ec Er].
    cbv zeta in Ec, Er. cbn [isi bui fmc sfc cbh] in Ec, Er.
    apply (C5_monotone_above_the_floor _ _ 1%nat 0%nat);
      try apply single_wf; try reflexivity; try lia; try (cbn; lra).
    + intros _.
      destruct (engine_at (single (mkObs "C6" 5 0 100 0.001 0 0 0 7))
                  1%nat 0%nat (single_wf _) ltac:(lia)) as (_ & E & _).
      rewrite E, obs_single, Ec.
      apply crownFractionBurnedC6_else. right. lra.
    + rewrite (raw_at _ 1%nat 0%nat (single_wf _)) by lia.
      rewrite obs_single, Er.
      eapply Rlt_le_trans; [|apply rateOfSpreadC6_ge]. apply HS.
    + intros g [].
Defined.

(** *** Why each condition is there *)

(** Above 100 the percentage of conifer reverses the order: an M1 observation
    with [PC = 200] has a negative weight on D1, whose curve is the slower
    to level off; from [ISI = 1000] to [ISI = 2000] the spread rate falls,
    though no floor fires. *)
Lemma PC_above_100_decrease :
  let o1 := mkObs "M1" 1000 60 100 1 200 0 0 7 in
  let o2 := mkObs "M1" 2000 60 100 1 200 0 0 7 in
  0 < JS.at_ (RoS.ROS_v rateOfSpread (single o1)) 0 /\
  JS.at_ (rateOfSpread (single o2)) 0 < JS.at_ (rateOfSpread (single o1)) 0.
Proof.
  intros o1 o2.
  rewrite (raw_at _ 1%nat 0%nat (single_wf _)) by lia.
  rewrite !(rateOfSpread_at _ 1%nat 0%nat (single_wf _)) by lia.
  rewrite !obs_single, !rateOfSpreadAt_ros, !ros_M1 by reflexivity.
  rewrite !pureRateOfSpreadAt_simple by (cbn; tauto).
  unfold o1, o2; cbn [pc bui isi].
  pose proof (buildupEffect_pos "M1" 60) as HB.
  set (b := buildupEffect "M1" 60) in *.
  rewrite !(constrain_id (RoS.curve _ _))
    by (apply curve_pos; [cbn; tauto | lra]).
  rewrite !curve_C2, !curve_D1.
  pose proof (shape_ge_linear 110 0.0282 1.5 ltac:(lra) ltac:(lra)
                ltac:(lra) 1000 ltac:(lra) ltac:(lra)) as C1.
  pose proof (shape_mono 110 0.0282 1.5 ltac:(lra) ltac:(lra) ltac:(lra)
                1000 2000 ltac:(lra)) as C12.
  pose proof (shape_le 110 0.0282 1.5 ltac:(lra) ltac:(lra) ltac:(lra)
                2000 ltac:(lra)) as C2.
  pose proof (shape_le_linear 30 0.0232 1.6 ltac:(lra) ltac:(lra)
                ltac:(lra) 1000 ltac:(lra) ltac:(lra)) as D1.
  pose proof (shape_ge_linear 30 0.0232 1.6 ltac:(lra) ltac:(lra)
                ltac:(lra) 2000 ltac:(lra) ltac:(lra)) as D2.
  pose proof (shape_le 30 0.0232 1.6 ltac:(lra) ltac:(lra) ltac:(lra)
                2000 ltac:(lra)) as D2'.
  assert (E2 : exp (- (0.0232) * 2000)
               = exp (- (0.0232) * 1000) * exp (- (0.0232) * 1000))
    by (rewrite <- exp_plus; f_equal; lra).
  assert (E1 : exp (- (0.0282) * 1000)
               = exp (- (0.0232) * 1000) * exp (- (1.25 + 1.25 + 1.25 + 1.25)))
    by (rewrite <- exp_plus; f_equal; lra).
  pose proof (exp_opp_le_4 1.25 ltac:(lra)) as H5.
  pose proof (exp_pos (- (1.25 + 1.25 + 1.25 + 1.25))) as H5'.
  pose proof (exp_opp_le 23.2 ltac:(lra)) as He.
  replace (- (23.2)) with (- (0.0232) * 1000) in He by lra.
  pose proof (exp_pos (- (0.0232) * 1000)) as He'.
  rewrite E2 in D2. rewrite E1 in C1.
  set (eps := exp (- (0.0232) * 1000)) in *.
  set (k := exp (- (1.25 + 1.25 + 1.25 + 1.25))) in *.
  set (c1 := shape 110 0.0282 1.5 1000) in *.
  set (c2 := shape 110 0.0282 1.5 2000) in *.
  set (d1 := shape 30 0.0232 1.6 1000) in *.
  set (d2 := shape 30 0.0232 1.6 2000) in *.
  assert (Hk : k <= 0.04).
  { eapply Rle_trans; [exact H5|].
    replace (/ (1 + 1.25)) with (4 / 9) by (field_simplify_eq; lra). lra. }
  assert (Hs : eps <= 0.05).
  { eapply Rle_trans; [exact He|].
    apply Rmult_le_reg_r with (1 + 23.2); [lra|].
    rewrite Rinv_l by lra. lra. }
  assert (Hek : eps * k <= 0.04 * eps) by nra.
  assert (Hee : eps * eps <= 0.05 * eps) by nra.
  assert (R1 : 0 < 200 / 100 * c1 + (100 - 200) / 100 * d1) by nra.
  assert (R2 : 0 < 200 / 100 * c2 + (100 - 200) / 100 * d2) by nra.
  split; [nra|].
  rewrite !constrain_id by nra.
  apply Rmult_lt_compat_l; [exact HB|]. nra.
Qed.

(** So does the percentage of dead fir: an M3 observation with [PDF = 200],
    from [ISI = 200] to [ISI = 400]. *)
Lemma PDF_above_100_decrease :
  let o1 := mkObs "M3" 200 60 100 1 0 200 0 7 in
  let o2 := mkObs "M3" 400 60 100 1 0 200 0 7 in
  0 < JS.at_ (RoS.ROS_v rateOfSpread (single o1)) 0 /\
  JS.at_ (rateOfSpread (single o2)) 0 < JS.at_ (rateOfSpread (single o1)) 0.
Proof.
  intros o1 o2.
  rewrite (raw_at _ 1%nat 0%nat (single_wf _)) by lia.
  rewrite !(rateOfSpread_at _ 1%nat 0%nat (single_wf _)) by lia.
  rewrite !obs_single, !rateOfSpreadAt_ros, !ros_M3 by reflexivity.
  rewrite !pureRateOfSpreadAt_simple by (cbn; tauto).
  unfold o1, o2; cbn [pdf bui isi].
  pose proof (buildupEffect_pos "M3" 60) as HB.
  set (b := buildupEffect "M3" 60) in *.
  rewrite !(constrain_id (RoS.curve _ _))
    by (apply curve_pos; [cbn; tauto | lra]).
  rewrite !curve_M3, !curve_D1.
  pose proof (shape_ge_linear 120 0.0572 1.4 ltac:(lra) ltac:(lra)
                ltac:(lra) 200 ltac:(lra) ltac:(lra)) as C1.
  pose proof (shape_mono 120 0.0572 1.4 ltac:(lra) ltac:(lra) ltac:(lra)
                200 400 ltac:(lra)) as C12.
  pose proof (shape_le 120 0.0572 1.4 ltac:(lra) ltac:(lra) ltac:(lra)
                400 ltac:(lra)) as C2.
  pose proof (shape_le_linear 30 0.0232 1.6 ltac:(lra) ltac:(lra)
                ltac:(lra) 200 ltac:(lra) ltac:(lra)) as D1.
  pose proof (shape_ge_linear 30 0.0232 1.6 ltac:(lra) ltac:(lra)
                ltac:(lra) 400 ltac:(lra) ltac:(lra)) as D2.
  pose proof (shape_le 30 0.0232 1.6 ltac:(lra) ltac:(lra) ltac:(lra)
                400 ltac:(lra)) as D2'.
  assert (E2 : exp (- (0.0232) * 400)
               = exp (- (0.0232) * 200) * exp (- (0.0232) * 200))
    by (rewrite <- exp_plus; f_equal; lra).
  assert (E1 : exp (- (0.0572) * 200)
               = exp (- (0.0232) * 200) * exp (- (1.7 + 1.7 + 1.7 + 1.7)))
    by (rewrite <- exp_plus; f_equal; lra).
  pose proof (exp_opp_le_4 1.7 ltac:(lra)) as H5.
  pose proof (exp_pos (- (1.7 + 1.7 + 1.7 + 1.7))) as H5'.
  pose proof (exp_opp_le_4 1.16 ltac:(lra)) as He.
  replace (- (1.16 + 1.16 + 1.16 + 1.16)) with (- (0.0232) * 200) in He
    by lra.
  pose proof (exp_pos (- (0.0232) * 200)) as He'.
  rewrite E2 in D2. rewrite E1 in C1.
  set (eps := exp (- (0.0232) * 200)) in *.
  set (k := exp (- (1.7 + 1.7 + 1.7 + 1.7))) in *.
  set (c1 := shape 120 0.0572 1.4 200) in *.
  set (c2 := shape 120 0.0572 1.4 400) in *.
  set (d1 := shape 30 0.0232 1.6 200) in *.
  set (d2 := shape 30 0.0232 1.6 400) in *.
  assert (Hk : k <= 0.02).
  { eapply Rle_trans; [exact H5|].
    replace (/ (1 + 1.7)) with (10 / 27) by (field_simplify_eq; lra). lra. }
  assert (Hs : eps <= 0.05).
  { eapply Rle_trans; [exact He|].
    replace (/ (1 + 1.16)) with (25 / 54) by (field_simplify_eq; lra). lra. }
  assert (Hek : eps * k <= 0.02 * eps) by nra.
  assert (Hee : eps * eps <= 0.05 * eps) by nra.
  assert (R1 : 0 < 200 / 100 * c1 + (1 - 200 / 100) * d1) by nra.
  assert (R2 : 0 < 200 / 100 * c2 + (1 - 200 / 100) * d2) by nra.
  split; [nra|].
  rewrite !constrain_id by nra.
  apply Rmult_lt_compat_l; [exact HB|]. nra.
Qed.

(** Below zero the initial spread index makes the base of the curve
    negative, and an even exponent makes its power large: a C7 observation
    returns more at [ISI = -100] than at [ISI = 1], and no floor fires. *)
Lemma negative_ISI_decrease :
  let o1 := mkObs "C7" (-100) 60 100 1 0 0 0 7 in
  let o2 := mkObs "C7" 1 60 100 1 0 0 0 7 in
  0 < JS.at_ (RoS.ROS_v rateOfSpread (single o1)) 0 /\
  JS.at_ (rateOfSpread (single o2)) 0 < JS.at_ (rateOfSpread (single o1)) 0.
Proof.
  intros o1 o2.
  rewrite (raw_at _ 1%nat 0%nat (single_wf _)) by lia.
  rewrite !(rateOfSpread_at _ 1%nat 0%nat (single_wf _)) by lia.
  rewrite !obs_single, !rateOfSpreadAt_ros, !ros_simple by (cbn; tauto).
  unfold o1, o2; cbn [fuel bui isi].
  pose proof (buildupEffect_pos "C7" 60) as HB.
  set (b := buildupEffect "C7" 60) in *.
  assert (H2 : 0 < RoS.curve "C7" 1 <= 45).
  { rewrite curve_shape. unfold RoS.coef;
      cbn [RoS.names RoS.index_from d String.eqb Ascii.eqb Bool.eqb nth
           RoS.a RoS.b RoS.c0].
    split; [apply shape_pos; lra | apply shape_le; lra]. }
  assert (H1 : 45 * 9 <= RoS.curve "C7" (-100)).
  { unfold RoS.curve, RoS.coef;
      cbn [RoS.names RoS.index_from d String.eqb Ascii.eqb Bool.eqb nth
           RoS.a RoS.b RoS.c0].
    replace (- (0.0305) * -100) with 3.05 by lra.
    pose proof (exp_ineq1_le 3.05) as He.
    set (e := exp 3.05) in *.
    unfold JS.Math_pow.
    destruct (Req_dec_T 2.0 0) as [H|_]; [lra|].
    destruct (Rlt_dec 0 (1 - e)) as [H|_]; [lra|].
    destruct (Req_dec_T (1 - e) 0) as [H|_]; [lra|].
    assert (I : Int_part 2.0 = 2%Z).
    { replace 2.0 with (INR 2) by (simpl; lra). apply Int_part_INR. }
    rewrite I. destruct (Req_dec_T 2.0 2) as [_|H]; [|lra].
    simpl. nra. }
  set (c1 := RoS.curve "C7" (-100)) in *.
  set (c2 := RoS.curve "C7" 1) in *.
  split; [nra|].
  rewrite !constrain_id by nra. nra.
Qed.

(** *** Double precision: the floor above zero, and the last digit *)

(** At [ISI = 1e-20] the exponent [-0.0282 * ISI] of the C2 curve is so
    small that [1 - exp (...)] is below [2 ^ -54], half the distance from [1]
    to the binary64 number before it. *)
Lemma curve_base_below_half_ulp : 1 - exp (- (0.0282) * 1e-20) < / 2 ^ 54.
Proof.
  pose proof (exp_ineq1_le (- (0.0282) * 1e-20)). lra.
Qed.

Section LastDigit.

Import Floats.
#[local] Set Warnings "-inexact-float".
Local Open Scope float_scope.

(** In double precision the floor also fires above zero: at [ISI = 1e-20]
    the exponential is rounded to [1] and the base of the C2 curve is [0], as
    it is at [ISI = 0]; at [ISI = 1e-14] it is not. *)
Lemma floor_above_zero :
  Binary64.curve_base 0.0282 1e-20 = 0 /\
  Binary64.curve_base 0.0282 0 = 0 /\
  (0 <? Binary64.curve_base 0.0282 1e-14) = true.
Proof. vm_compute. repeat split. Qed.

(** Just above, the bases of two curves step at different places: from
    [ISI = 5e-15] to [ISI = 7e-15] the base of the C2 curve doubles and the
    base of the D1 curve stays.  The C2 rate then grows and the D1 rate does
    not, so that a blend with a negative weight on C2 goes down: this is why
    the percentages are kept from below zero. *)
Lemma bases_step_apart :
  Binary64.curve_base 0.0282 5e-15 = 0x1p-53 /\
  Binary64.curve_base 0.0282 7e-15 = 0x1p-52 /\
  Binary64.curve_base 0.0232 5e-15 = 0x1p-53 /\
  Binary64.curve_base 0.0232 7e-15 = 0x1p-53.
Proof. vm_compute. repeat split. Qed.

(** Eq. 65 adds to the surface rate a share of its distance to the crown
    rate.  Over the reals the sum grows with the surface rate
    ([rateOfSpreadC6_mono]); in double precision the distance is rounded
    before it is added, and the sum can lose its last digit when the surface
    rate gains one: from [30.500000000000004] down to [30.5] here. *)
Lemma rateOfSpreadC6_last_digit :
  let RSS1 := 0x1.0000000000010p+0 in
  let RSS2 := 0x1.0000000000011p+0 in
  (RSS1 <? RSS2) = true /\
  Binary64.rateOfSpreadC6 60 RSS1 0.5 = 0x1.e800000000001p+4 /\
  Binary64.rateOfSpreadC6 60 RSS2 0.5 = 30.5 /\
  (Binary64.rateOfSpreadC6 60 RSS2 0.5 <? Binary64.rateOfSpreadC6 60 RSS1 0.5)
  = true.
Proof. vm_compute. repeat split. Qed.

End LastDigit.


(* ================================================================= *)
(** ** Slope adjustment at one index *)

Lemma pass_length (c : bool) (f : R -> nat -> R) (l : list R) :
  List.length (if c then JS.imap f l else l) = List.length l.
Proof. destruct c; [apply imap_length | reflexivity]. Qed.

(** A pass over the array that leaves the entry at [i] as it is. *)
Lemma pass_keep (c : bool) (f : R -> nat -> R) (l : list R) (i : nat) :
  (i < List.length l)%nat -> f (JS.at_ l i) i = JS.at_ l i ->
  JS.at_ (if c then JS.imap f l else l) i = JS.at_ l i.
Proof.
  intros Hi H. destruct c; [|reflexivity]. now rewrite at_imap.
Qed.

Section SlopeAt.

Variable FUELTYPE : list string.
Variables FFMC WS WAZ GS SAZ FMC SFC PC PDF CC CBH ISI : list R.
Variables n i : nat.
Hypothesis Hi : (i < n)%nat.
Hypothesis LFUEL : List.length FUELTYPE = n.
Hypothesis LFFMC : List.length FFMC = n.
Hypothesis LWS : List.length WS = n.
Hypothesis LGS : List.length GS = n.
Hypothesis LFMC : List.length FMC = n.
Hypothesis LSFC : List.length SFC = n.
Hypothesis LPC : List.length PC = n.
Hypothesis LPDF : List.length PDF = n.
Hypothesis LCC : List.length CC = n.
Hypothesis LCBH : List.length CBH = n.

Local Abbreviation ft := (JS.sat FUELTYPE i).
Local Abbreviation flat :=
  (mkInputParams FUELTYPE (Slope.ISZ FFMC) (Slope.NoBUI FFMC) FMC SFC PC PDF
     CC CBH).

Lemma SF_at :
  JS.at_ (Slope.SF GS) i
  = if JS.at_ GS i >=? 70 then 10
    else exp (3.533 * JS.Math_pow (JS.at_ GS i / 100) 1.2).
Proof using Hi LGS.
  unfold Slope.SF. now rewrite at_map by now rewrite LGS.
Qed.

Lemma ISZ_at :
  JS.at_ (Slope.ISZ FFMC) i = initialSpreadIndex (JS.at_ FFMC i) 0 false.
Proof using Hi LFFMC.
  unfold Slope.ISZ. now rewrite at_map by now rewrite LFFMC.
Qed.

Lemma flat_wf : wf n flat.
Proof using LFUEL LFFMC LFMC LSFC LPC LPDF LCC LCBH.
  unfold wf, Slope.ISZ, Slope.NoBUI; simpl.
  rewrite !length_map. tauto.
Qed.

(** The zero-wind, flat-ground spread rate. *)
Lemma RSZ_at :
  JS.at_ (Slope.RSZ FUELTYPE FFMC FMC SFC PC PDF CC CBH) i
  = rateOfSpreadAt
      (mkObs ft (initialSpreadIndex (JS.at_ FFMC i) 0 false) (-1)
             (JS.at_ FMC i) (JS.at_ SFC i) (JS.at_ PC i) (JS.at_ PDF i)
             (JS.at_ CC i) (JS.at_ CBH i)).
Proof using Hi LFUEL LFFMC LFMC LSFC LPC LPDF LCC LCBH.
  unfold Slope.RSZ. rewrite (rateOfSpread_at _ n i flat_wf Hi).
  unfold obs; simpl. rewrite ISZ_at. unfold Slope.NoBUI.
  now rewrite at_map by now rewrite LFFMC.
Qed.

Lemma RSZ_length :
  List.length (Slope.RSZ FUELTYPE FFMC FMC SFC PC PDF CC CBH) = n.
Proof using LFFMC.
  unfold Slope.RSZ. rewrite rateOfSpread_length; simpl.
  unfold Slope.ISZ. now rewrite length_map.
Qed.

Lemma RSF_at :
  JS.at_ (Slope.RSF FUELTYPE FFMC GS FMC SFC PC PDF CC CBH) i
  = JS.at_ (Slope.RSZ FUELTYPE FFMC FMC SFC PC PDF CC CBH) i
    * JS.at_ (Slope.SF GS) i.
Proof using Hi LFFMC.
  unfold Slope.RSF. now rewrite at_imap by now rewrite RSZ_length.
Qed.

Lemma ISF_1_length :
  List.length (Slope.ISF_1 FUELTYPE FFMC GS FMC SFC PC PDF CC CBH) = n.
Proof using LFFMC.
  unfold Slope.ISF_1, Slope.ISF_0. now rewrite imap_length, repeat_length.
Qed.

Lemma ISF_1_at :
  In ft Slope.basic ->
  JS.at_ (Slope.ISF_1 FUELTYPE FFMC GS FMC SFC PC PDF CC CBH) i
  = Slope.invert ft (JS.get Slope.a ft)
      (JS.at_ (Slope.RSF FUELTYPE FFMC GS FMC SFC PC PDF CC CBH) i).
Proof using Hi LFUEL LFFMC.
  intros Hb. unfold Slope.ISF_1, Slope.ISF_0.
  rewrite at_imap by now rewrite repeat_length, LFFMC.
  unfold Slope.isBasic.
  rewrite (nth_indep _ false (JS.includes Slope.basic ""))
    by now rewrite length_map, LFUEL.
  rewrite (map_nth (JS.includes Slope.basic)).
  apply includes_In in Hb. unfold JS.sat in Hb. now rewrite Hb.
Qed.

(** The later passes treat M1 to M4 and the grass types: they leave the
    entry of a basic fuel type as the first pass made it. *)
Lemma ISF_at :
  In ft Slope.basic ->
  JS.at_ (Slope.ISF FUELTYPE FFMC GS FMC SFC PC PDF CC CBH ISI) i
  = JS.at_ (Slope.ISF_1 FUELTYPE FFMC GS FMC SFC PC PDF CC CBH) i.
Proof using Hi LFFMC.
  intros Hb.
  assert (N : String.eqb ft "M1" = false /\ String.eqb ft "M2" = false /\
              String.eqb ft "M3" = false /\ String.eqb ft "M4" = false /\
              String.eqb ft "O1A" = false /\ String.eqb ft "O1B" = false).
  { cbn in Hb. decompose [or] Hb; try contradiction;
      match goal with H : _ = ft |- _ => rewrite <- H end; repeat split. }
  destruct N as (N1 & N2 & N3 & N4 & N5 & N6).
  assert (L2 : List.length
                 (Slope.ISF_2 FUELTYPE FFMC GS FMC SFC PC PDF CC CBH) = n).
  { unfold Slope.ISF_2. rewrite pass_length. apply ISF_1_length. }
  assert (L3 : List.length
                 (Slope.ISF_3 FUELTYPE FFMC GS FMC SFC PC PDF CC CBH ISI) = n).
  { unfold Slope.ISF_3, Slope.ISF_mixed. now rewrite pass_length. }
  assert (L4 : List.length
                 (Slope.ISF_4 FUELTYPE FFMC GS FMC SFC PC PDF CC CBH ISI) = n).
  { unfold Slope.ISF_4, Slope.ISF_mixed. now rewrite pass_length. }
  unfold Slope.ISF. rewrite at_imap by now rewrite L4.
  rewrite N5, N6; cbn [orb].
  unfold Slope.ISF_4, Slope.ISF_mixed at 1.
  rewrite pass_keep; [|now rewrite L3 | now rewrite N4].
  unfold Slope.ISF_3, Slope.ISF_mixed at 1.
  rewrite pass_keep; [|now rewrite L2 | now rewrite N3].
  unfold Slope.ISF_2.
  rewrite pass_keep; [reflexivity | now rewrite ISF_1_length |].
  now rewrite N1, N2.
Qed.

Lemma adjustedWSE_length :
  List.length
    (Slope.adjustedWSE FUELTYPE FFMC GS FMC SFC PC PDF CC CBH ISI) = n.
Proof using LFFMC.
  unfold Slope.adjustedWSE. now rewrite imap_length, WSE_length.
Qed.

Lemma WSX_at :
  JS.at_ (Slope.WSX FUELTYPE FFMC WS WAZ GS SAZ FMC SFC PC PDF CC CBH ISI) i
  = JS.at_ WS i * sin (JS.at_ WAZ i)
    + JS.at_ (Slope.adjustedWSE FUELTYPE FFMC GS FMC SFC PC PDF CC CBH ISI) i
      * sin (JS.at_ SAZ i).
Proof using Hi LWS.
  unfold Slope.WSX. now rewrite at_imap by now rewrite LWS.
Qed.

Lemma WSY_at :
  JS.at_ (Slope.WSY FUELTYPE FFMC WS WAZ GS SAZ FMC SFC PC PDF CC CBH ISI) i
  = JS.at_ WS i * cos (JS.at_ WAZ i)
    + JS.at_ (Slope.adjustedWSE FUELTYPE FFMC GS FMC SFC PC PDF CC CBH ISI) i
      * cos (JS.at_ SAZ i).
Proof using Hi LWS.
  unfold Slope.WSY. now rewrite at_imap by now rewrite LWS.
Qed.

Lemma WSV_at :
  let wsx :=
    JS.at_ (Slope.WSX FUELTYPE FFMC WS WAZ GS SAZ FMC SFC PC PDF CC CBH ISI)
           i in
  let wsy :=
    JS.at_ (Slope.WSY FUELTYPE FFMC WS WAZ GS SAZ FMC SFC PC PDF CC CBH ISI)
           i in
  JS.at_ (Slope.WSV_v FUELTYPE FFMC WS WAZ GS SAZ FMC SFC PC PDF CC CBH ISI) i
  = sqrt (wsx * wsx + wsy * wsy).
Proof using Hi LWS.
  cbv zeta. unfold Slope.WSV_v. rewrite at_imap; [reflexivity|].
  unfold Slope.WSX. now rewrite imap_length, LWS.
Qed.

End SlopeAt.


(* ================================================================= *)
(** ** Flat ground: the inversion and the equivalent wind *)

(** The two places that compute the fine fuel moisture function give it
    different moisture contents. *)
Lemma initialSpreadIndex_calm (ffmc : R) :
  initialSpreadIndex ffmc 0 false
  = 0.208 * fineFuelMoisture (59.5 * (101 - ffmc) / (59.5 + ffmc)).
Proof.
  unfold initialSpreadIndex, fineFuelMoisture. cbv zeta.
  rewrite andb_false_r, Rmult_0_r, exp_0. ring.
Qed.

Lemma fF_at (FFMC : list R) (i : nat) :
  (i < List.length FFMC)%nat ->
  JS.at_ (Slope.fF FFMC) i = fineFuelMoisture (101 - JS.at_ FFMC i).
Proof.
  intros Hi. unfold Slope.fF, Slope.m.
  rewrite !at_map; [reflexivity | exact Hi | now rewrite length_map].
Qed.

Lemma fineFuelMoisture_pos (mc : R) : 0 < mc -> 0 < fineFuelMoisture mc.
Proof.
  intros H. unfold fineFuelMoisture. rewrite Math_pow_pos by lra.
  pose proof (exp_pos (- 0.1386 * mc)). pose proof (Rpower_pos mc 5.31).
  assert (0 < Rpower mc 5.31 / 49300000) by lra.
  assert (0 < 91.9 * exp (- 0.1386 * mc)) by lra. nra.
Qed.

(** The clamped inversion gives back the index of a curve value, as long as
    the clamp at [0.01] is not reached. *)
Lemma invert_shape (ft : string) (A x : R) :
  0 < A -> 0 < JS.get Slope.b ft -> 0 < JS.get Slope.c0 ft -> 0 < x ->
  0.01 <= exp (- JS.get Slope.b ft * x) ->
  Slope.invert ft A (shape A (JS.get Slope.b ft) (JS.get Slope.c0 ft) x) = x.
Proof.
  intros HA HB HC Hx Hclamp. unfold Slope.invert, shape. cbv zeta.
  set (B := JS.get Slope.b ft) in *. set (C := JS.get Slope.c0 ft) in *.
  pose proof (base_pos B HB x Hx) as Hu.
  set (u := 1 - exp (- B * x)) in *.
  rewrite (Math_pow_pos u) by lra.
  replace (A * Rpower u C / A) with (Rpower u C) by (field; lra).
  assert (HiC : 0 < 1 / C) by (apply Rdiv_lt_0_compat; lra).
  rewrite Math_pow_pos; [|apply Rpower_pos|lra].
  rewrite Rpower_mult. replace (C * (1 / C)) with 1 by (field; lra).
  rewrite Rpower_1 by lra.
  replace (1 - u) with (exp (- B * x)) by (unfold u; lra).
  replace (exp (- B * x) >=? 0.01) with true by (rcases; trivial; lra).
  rewrite ln_exp. field. lra.
Qed.

Lemma rateOfSpreadAt_simple_disabled (ft : string) (x f s pc_ pd c h : R) :
  In ft RoS.simple -> 0 < x ->
  rateOfSpreadAt (mkObs ft x (-1) f s pc_ pd c h) = RoS.curve ft x.
Proof.
  intros Hft Hx. rewrite rateOfSpreadAt_ros, ros_simple by exact Hft.
  cbn [fuel isi bui]. rewrite buildupEffect_disabled, Rmult_1_l.
  apply constrain_id. apply curve_pos; [now apply simple_curved | exact Hx].
Qed.

Section FlatGround.

Variable FUELTYPE : list string.
Variables FFMC WS WAZ GS SAZ FMC SFC PC PDF CC CBH ISI : list R.
Variables n i : nat.
Hypothesis Hi : (i < n)%nat.
Hypothesis LFUEL : List.length FUELTYPE = n.
Hypothesis LFFMC : List.length FFMC = n.
Hypothesis LWS : List.length WS = n.
Hypothesis LGS : List.length GS = n.
Hypothesis LFMC : List.length FMC = n.
Hypothesis LSFC : List.length SFC = n.
Hypothesis LPC : List.length PC = n.
Hypothesis LPDF : List.length PDF = n.
Hypothesis LCC : List.length CC = n.
Hypothesis LCBH : List.length CBH = n.

Hypothesis HC2 : JS.sat FUELTYPE i = "C2".
Hypothesis HGS : JS.at_ GS i = 0.

Local Abbreviation isz := (initialSpreadIndex (JS.at_ FFMC i) 0 false).

(** On flat ground the slope factor is [1]. *)
Lemma SF_flat : JS.at_ (Slope.SF GS) i = 1.
Proof using Hi LGS HGS.
  rewrite (SF_at GS n i Hi LGS), HGS.
  replace (0 >=? 70) with false by (rcases; trivial; lra).
  replace (0 / 100) with 0 by lra.
  rewrite Math_pow_0 by lra. rewrite Rmult_0_r. apply exp_0.
Qed.

(** The inversion gives back the zero-wind index: [ISF = ISZ]. *)
Lemma ISF_flat :
  0 < isz -> 0.01 <= exp (- (0.0282) * isz) ->
  JS.at_ (Slope.ISF FUELTYPE FFMC GS FMC SFC PC PDF CC CBH ISI) i = isz.
Proof using Hi LFUEL LFFMC LGS LFMC LSFC LPC LPDF LCC LCBH HC2 HGS.
  intros Hz Hclamp.
  assert (Hb : In (JS.sat FUELTYPE i) Slope.basic)
    by (rewrite HC2; cbn; tauto).
  rewrite (ISF_at FUELTYPE FFMC GS FMC SFC PC PDF CC CBH ISI n i Hi LFFMC Hb).
  rewrite (ISF_1_at FUELTYPE FFMC GS FMC SFC PC PDF CC CBH n i Hi LFUEL LFFMC
             Hb).
  rewrite (RSF_at FUELTYPE FFMC GS FMC SFC PC PDF CC CBH n i Hi LFFMC).
  rewrite SF_flat, Rmult_1_r.
  rewrite (RSZ_at FUELTYPE FFMC FMC SFC PC PDF CC CBH n i Hi LFUEL LFFMC LFMC
             LSFC LPC LPDF LCC LCBH).
  rewrite HC2, rateOfSpreadAt_simple_disabled by (trivial; cbn; tauto).
  rewrite curve_shape.
  change (RoS.coef RoS.a "C2") with (JS.get Slope.a "C2").
  change (RoS.coef RoS.b "C2") with (JS.get Slope.b "C2").
  change (RoS.coef RoS.c0 "C2") with (JS.get Slope.c0 "C2").
  apply invert_shape; try exact Hz; try exact Hclamp;
    unfold JS.get; cbn; lra.
Qed.

(** The equivalent wind on flat ground: the logarithm of the ratio of the
    fine fuel moisture function at the two moisture contents. *)
Lemma WSE_flat :
  0 < isz -> 0.01 <= exp (- (0.0282) * isz) ->
  0 < fineFuelMoisture (101 - JS.at_ FFMC i) ->
  JS.at_ (Slope.WSE FUELTYPE FFMC GS FMC SFC PC PDF CC CBH ISI) i
  = 1 / 0.05039
    * ln (fineFuelMoisture
            (59.5 * (101 - JS.at_ FFMC i) / (59.5 + JS.at_ FFMC i))
          / fineFuelMoisture (101 - JS.at_ FFMC i)).
Proof using Hi LFUEL LFFMC LGS LFMC LSFC LPC LPDF LCC LCBH HC2 HGS.
  intros Hz Hclamp Hf.
  rewrite (WSE_at FUELTYPE FFMC GS FMC SFC PC PDF CC CBH ISI i)
    by now rewrite LFFMC.
  rewrite (ISF_flat Hz Hclamp), (fF_at FFMC i) by now rewrite LFFMC.
  rewrite initialSpreadIndex_calm. do 2 f_equal. field. lra.
Qed.

End FlatGround.

(** *** The instance [FFMC = 90] *)

Lemma Rpower_le_pow6 (x : R) : 1 <= x -> Rpower x 5.31 <= x ^ 6.
Proof.
  intros H. rewrite <- Rpower_pow by lra.
  apply Rle_Rpower; [exact H | simpl; lra].
Qed.

Lemma ln_1_plus (t : R) : 0 <= t -> 0 <= ln (1 + t) <= t.
Proof.
  intros H. split.
  - rewrite <- ln_1. destruct H as [H|H].
    + left. apply ln_increasing; lra.
    + subst. right. f_equal. lra.
  - pose proof (ln_le_minus_1 (1 + t)). lra.
Qed.

Lemma ln_fineFuelMoisture (mc : R) :
  0 < mc ->
  ln (fineFuelMoisture mc)
  = ln 91.9 - 0.1386 * mc + ln (1 + Rpower mc 5.31 / 49300000).
Proof.
  intros H. unfold fineFuelMoisture. rewrite Math_pow_pos by lra.
  pose proof (exp_pos (- 0.1386 * mc)). pose proof (Rpower_pos mc 5.31).
  assert (0 < 1 + Rpower mc 5.31 / 49300000) by lra.
  rewrite ln_mult by nra. rewrite ln_mult by lra. rewrite ln_exp. lra.
Qed.

(** At [FFMC = 90] the initial spread index takes the moisture content
    [59.5 * 11 / 149.5], about 4.38, and the slope adjustment takes [11]: the
    logarithm of the ratio of the two values of the fine fuel moisture
    function is about 0.9, not 0. *)
Lemma ln_moisture_ratio_90 :
  0.88 <= ln (fineFuelMoisture (59.5 * (101 - 90) / (59.5 + 90))
              / fineFuelMoisture (101 - 90)) <= 0.92.
Proof.
  set (fm := 59.5 * (101 - 90) / (59.5 + 90)).
  assert (Hfm : 4.377 <= fm <= 4.378) by (unfold fm; lra).
  replace (101 - 90) with 11 by lra.
  pose proof (fineFuelMoisture_pos fm ltac:(lra)) as P1.
  pose proof (fineFuelMoisture_pos 11 ltac:(lra)) as P2.
  unfold Rdiv. rewrite ln_mult by (trivial; now apply Rinv_0_lt_compat).
  rewrite ln_Rinv by exact P2.
  rewrite !ln_fineFuelMoisture by lra.
  assert (T1 : 0 < Rpower fm 5.31 <= 15625).
  { split; [apply Rpower_pos|].
    apply Rle_trans with (Rpower 5 5.31).
    - apply Rle_Rpower_l; lra.
    - pose proof (Rpower_le_pow6 5 ltac:(lra)). simpl in *. lra. }
  assert (T2 : 0 < Rpower 11 5.31 <= 1771561).
  { split; [apply Rpower_pos|].
    pose proof (Rpower_le_pow6 11 ltac:(lra)). simpl in *. lra. }
  pose proof (ln_1_plus (Rpower fm 5.31 / 49300000) ltac:(lra)) as L1.
  pose proof (ln_1_plus (Rpower 11 5.31 / 49300000) ltac:(lra)) as L2.
  lra.
Qed.

Lemma initialSpreadIndex_90 :
  0 < initialSpreadIndex 90 0 false <= 19.2.
Proof.
  rewrite initialSpreadIndex_calm.
  set (fm := 59.5 * (101 - 90) / (59.5 + 90)).
  assert (Hfm : 4.377 <= fm <= 4.378) by (unfold fm; lra).
  pose proof (fineFuelMoisture_pos fm ltac:(lra)) as P1.
  split; [lra|].
  unfold fineFuelMoisture in *. rewrite Math_pow_pos in * by lra.
  assert (T1 : 0 < Rpower fm 5.31 <= 15625).
  { split; [apply Rpower_pos|].
    apply Rle_trans with (Rpower 5 5.31).
    - apply Rle_Rpower_l; lra.
    - pose proof (Rpower_le_pow6 5 ltac:(lra)). simpl in *. lra. }
  pose proof (exp_pos (- 0.1386 * fm)) as E0.
  pose proof (exp_neg_lt_1 (- 0.1386 * fm) ltac:(lra)) as E1.
  set (e := exp (- 0.1386 * fm)) in *.
  set (t := Rpower fm 5.31) in *.
  assert (e * (1 + t / 49300000) <= 1 * 1.001) by (apply Rmult_le_compat; lra).
  lra.
Qed.

(** Claim C6, at one observation of fuel type C2 on flat ground: with
    [FFMC = 90], a wind of 10 km/h blowing along azimuth 0 and a slope of 0
    percent, the net effective wind speed returned is between 27 and 28.5
    km/h, and not the 10 km/h of the wind. *)
Theorem C6_flat_ground_wind_speed :
  exists wsv,
    WSV (nth 0 (slopeAdjustment ["C2"] [90] [60] [10] [0] [0] [0] [100] [1]
                  [0] [0] [0] [7] [5])
                (mkSlopeAdjustmentResult None None)) = Some wsv /\
    27 <= wsv <= 28.5.
Proof.
  rewrite (slopeAdjustment_fuel ["C2"]);
    [ | cbn; intuition discriminate | cbn; intuition discriminate
      | simpl; lia ].
  cbn [WSV]. eexists. split; [reflexivity|].
  assert (H0 : (0 < 1)%nat) by lia.
  pose proof initialSpreadIndex_90 as [Z1 Z2].
  pose proof ln_moisture_ratio_90 as [R1 R2].
  assert (Hclamp : 0.01 <= exp (- (0.0282) * initialSpreadIndex 90 0 false)).
  { pose proof (exp_ineq1_le (- (0.0282) * initialSpreadIndex 90 0 false)).
    lra. }
  assert (EW : JS.at_ (Slope.WSE ["C2"] [90] [0] [100] [1] [0] [0] [0] [7]
                         [5]) 0
               = 1 / 0.05039
                 * ln (fineFuelMoisture (59.5 * (101 - 90) / (59.5 + 90))
                       / fineFuelMoisture (101 - 90))).
  { apply (WSE_flat ["C2"] [90] [0] [100] [1] [0] [0] [0] [7] [5] 1%nat 0%nat
             H0); try reflexivity; try assumption.
    apply fineFuelMoisture_pos. cbn. lra. }
  set (lr := ln (fineFuelMoisture (59.5 * (101 - 90) / (59.5 + 90))
                 / fineFuelMoisture (101 - 90))) in *.
  assert (BW : 17 <= 1 / 0.05039 * lr <= 18.5).
  { unfold Rdiv. rewrite Rmult_1_l.
    assert (I : / 0.05039 * 0.05039 = 1) by (apply Rinv_l; lra).
    assert (0 < / 0.05039) by (apply Rinv_0_lt_compat; lra). nra. }
  assert (EA : JS.at_ (Slope.adjustedWSE ["C2"] [90] [0] [100] [1] [0] [0]
                         [0] [7] [5]) 0 = 1 / 0.05039 * lr).
  { rewrite adjustedWSE_at by (simpl; lia). rewrite EW.
    replace (1 / 0.05039 * lr >? 40) with false by (rcases; trivial; lra).
    reflexivity. }
  rewrite (WSV_at ["C2"] [90] [10] [0] [0] [0] [100] [1] [0] [0] [0] [7] [5]
             1%nat 0%nat H0 eq_refl).
  cbv zeta.
  rewrite (WSX_at ["C2"] [90] [10] [0] [0] [0] [100] [1] [0] [0] [0] [7] [5]
             1%nat 0%nat H0 eq_refl).
  rewrite (WSY_at ["C2"] [90] [10] [0] [0] [0] [100] [1] [0] [0] [0] [7] [5]
             1%nat 0%nat H0 eq_refl).
  rewrite EA. change (JS.at_ [10] 0) with 10. change (JS.at_ [0] 0) with 0.
  rewrite sin_0, cos_0.
  match goal with
  | |- _ <= sqrt ?e <= _ =>
      replace e with ((10 + 1 / 0.05039 * lr) * (10 + 1 / 0.05039 * lr))
        by ring
  end.
  rewrite sqrt_square by lra. lra.
Qed.


(* ================================================================= *)
(** ** Slope adjustment: every fuel type at one index *)

Lemma sat_map (f : string -> string) (l : list string) (i : nat) :
  (i < List.length l)%nat -> JS.sat (map f l) i = f (JS.sat l i).
Proof.
  intros Hi. unfold JS.sat.
  rewrite (nth_indep (map f l) "" (f "")) by now rewrite length_map.
  apply map_nth.
Qed.

Lemma sat_In (l : list string) (i : nat) :
  (i < List.length l)%nat -> In (JS.sat l i) l.
Proof. intros Hi. unfold JS.sat. now apply nth_In. Qed.

(** A fuel type that the batch does not include is not the one at [i]. *)
Lemma includes_false_at (l : list string) (s : string) (i : nat) :
  JS.includes l s = false -> (i < List.length l)%nat ->
  String.eqb (JS.sat l i) s = false.
Proof.
  intros H Hi. apply String.eqb_neq. intros E.
  apply not_true_iff_false in H. apply H, includes_In.
  rewrite <- E. now apply sat_In.
Qed.

Section SlopeEvery.

Variable FUELTYPE : list string.
Variables FFMC BUI WS WAZ GS SAZ FMC SFC PC PDF CC CBH ISI : list R.
Variables n i : nat.
Hypothesis Hi : (i < n)%nat.
Hypothesis Hwf :
  slope_wf n FUELTYPE FFMC BUI WS WAZ GS SAZ FMC SFC PC PDF CC CBH ISI.

Local Abbreviation o :=
  (slope_obs FUELTYPE FFMC WS WAZ GS SAZ FMC SFC PC PDF CC CBH i).

Let LFUEL : List.length FUELTYPE = n.
Proof. apply Hwf. Qed.
Let LFFMC : List.length FFMC = n.
Proof. apply Hwf. Qed.
Let LWS : List.length WS = n.
Proof. apply Hwf. Qed.
Let LGS : List.length GS = n.
Proof. apply Hwf. Qed.
Let LFMC : List.length FMC = n.
Proof. apply Hwf. Qed.
Let LSFC : List.length SFC = n.
Proof. apply Hwf. Qed.
Let LPC : List.length PC = n.
Proof. apply Hwf. Qed.
Let LPDF : List.length PDF = n.
Proof. apply Hwf. Qed.
Let LCC : List.length CC = n.
Proof. apply Hwf. Qed.
Let LCBH : List.length CBH = n.
Proof. apply Hwf. Qed.
Let LISI : List.length ISI = n.
Proof. apply Hwf. Qed.

(** The spread rate, times the slope factor, of a batch whose fuel types have
    been replaced through [f] and whose percentages of dead balsam fir are
    [P]. *)
Lemma replaced_at (f : string -> string) (P : list R) :
  List.length P = n ->
  JS.at_ (JS.imap (fun rsz k => rsz * JS.at_ (Slope.SF GS) k)
            (rateOfSpread
               (mkInputParams (map f FUELTYPE) (Slope.ISZ FFMC)
                  (Slope.NoBUI FFMC) FMC SFC PC P CC CBH))) i
  = SlopeEl.rsf o (f (JS.sat FUELTYPE i)) (JS.at_ P i).
Proof.
  intros LP.
  assert (W : wf n (mkInputParams (map f FUELTYPE) (Slope.ISZ FFMC)
                      (Slope.NoBUI FFMC) FMC SFC PC P CC CBH)).
  { unfold wf, Slope.ISZ, Slope.NoBUI; simpl. rewrite !length_map.
    repeat split; assumption. }
  rewrite at_imap
    by (rewrite rateOfSpread_length; simpl; unfold Slope.ISZ;
        now rewrite length_map, LFFMC).
  rewrite (rateOfSpread_at _ n i W Hi).
  unfold obs; simpl.
  rewrite sat_map by now rewrite LFUEL.
  rewrite (ISZ_at FFMC n i Hi LFFMC), (SF_at GS n i Hi LGS).
  unfold Slope.NoBUI. rewrite at_map by now rewrite LFFMC.
  reflexivity.
Qed.

Lemma RSF_every :
  JS.at_ (Slope.RSF FUELTYPE FFMC GS FMC SFC PC PDF CC CBH) i
  = SlopeEl.rsf o (JS.sat FUELTYPE i) (JS.at_ PDF i).
Proof.
  rewrite (RSF_at FUELTYPE FFMC GS FMC SFC PC PDF CC CBH n i Hi LFFMC).
  rewrite (RSZ_at FUELTYPE FFMC FMC SFC PC PDF CC CBH n i Hi LFUEL LFFMC LFMC
             LSFC LPC LPDF LCC LCBH).
  rewrite (SF_at GS n i Hi LGS). reflexivity.
Qed.

Lemma ISF_1_every :
  JS.at_ (Slope.ISF_1 FUELTYPE FFMC GS FMC SFC PC PDF CC CBH) i
  = SlopeEl.isf_1 o.
Proof.
  unfold Slope.ISF_1, Slope.ISF_0.
  rewrite at_imap by now rewrite repeat_length, LFFMC.
  unfold Slope.isBasic.
  rewrite (nth_indep _ false (JS.includes Slope.basic ""))
    by now rewrite length_map, LFUEL.
  rewrite (map_nth (JS.includes Slope.basic)).
  fold (JS.sat FUELTYPE i). unfold SlopeEl.isf_1; cbn [s_fuel s_pdf slope_obs].
  rewrite RSF_every, at_repeat by now rewrite LFFMC. reflexivity.
Qed.

Lemma ISF_2_every :
  JS.at_ (Slope.ISF_2 FUELTYPE FFMC GS FMC SFC PC PDF CC CBH) i
  = SlopeEl.isf_2 o.
Proof.
  pose proof (ISF_1_length FUELTYPE FFMC GS FMC SFC PC PDF CC CBH n LFFMC)
    as L1.
  unfold Slope.ISF_2, SlopeEl.isf_2; cbn [s_fuel s_pc s_pdf slope_obs].
  destruct (JS.includes FUELTYPE "M1" || JS.includes FUELTYPE "M2") eqn:E.
  - cbv zeta. rewrite at_imap by now rewrite L1.
    destruct (String.eqb (JS.sat FUELTYPE i) "M1"
              || String.eqb (JS.sat FUELTYPE i) "M2") eqn:F.
    + unfold Slope.subst2. rewrite !replaced_at by exact LPDF.
      rewrite F. reflexivity.
    + apply ISF_1_every.
  - apply orb_false_elim in E as [E1 E2].
    rewrite (includes_false_at _ _ i E1), (includes_false_at _ _ i E2)
      by now rewrite LFUEL.
    apply ISF_1_every.
Qed.

Lemma PDF100_at : JS.at_ (Slope.PDF100 ISI) i = 100.
Proof. unfold Slope.PDF100. now rewrite at_map by now rewrite LISI. Qed.

Lemma ISF_mixed_every (M : string) (prev : list R) (v : R) :
  List.length prev = n -> JS.at_ prev i = v ->
  JS.at_ (Slope.ISF_mixed FUELTYPE FFMC GS FMC SFC PC PDF CC CBH ISI M prev) i
  = SlopeEl.isf_mixed o M v.
Proof.
  intros Lp Ep.
  unfold Slope.ISF_mixed, SlopeEl.isf_mixed; cbn [s_fuel s_pdf slope_obs].
  destruct (JS.includes FUELTYPE M) eqn:E.
  - cbv zeta. rewrite at_imap by now rewrite Lp.
    destruct (String.eqb (JS.sat FUELTYPE i) M) eqn:F; [|exact Ep].
    unfold Slope.subst1.
    rewrite !replaced_at
      by (unfold Slope.PDF100; now rewrite length_map, LISI).
    rewrite F, PDF100_at. reflexivity.
  - rewrite (includes_false_at _ _ i E) by now rewrite LFUEL. exact Ep.
Qed.

Lemma ISF_mixed_length (M : string) (prev : list R) :
  List.length
    (Slope.ISF_mixed FUELTYPE FFMC GS FMC SFC PC PDF CC CBH ISI M prev)
  = List.length prev.
Proof. unfold Slope.ISF_mixed. apply pass_length. Qed.

Lemma ISF_4_length :
  List.length (Slope.ISF_4 FUELTYPE FFMC GS FMC SFC PC PDF CC CBH ISI) = n.
Proof.
  unfold Slope.ISF_4, Slope.ISF_3. rewrite !ISF_mixed_length.
  unfold Slope.ISF_2. rewrite pass_length.
  apply (ISF_1_length FUELTYPE FFMC GS FMC SFC PC PDF CC CBH n LFFMC).
Qed.

Lemma ISF_4_every :
  JS.at_ (Slope.ISF_4 FUELTYPE FFMC GS FMC SFC PC PDF CC CBH ISI) i
  = SlopeEl.isf_4 o.
Proof.
  unfold Slope.ISF_4, Slope.ISF_3, SlopeEl.isf_4.
  apply ISF_mixed_every.
  - rewrite ISF_mixed_length. unfold Slope.ISF_2. rewrite pass_length.
    apply (ISF_1_length FUELTYPE FFMC GS FMC SFC PC PDF CC CBH n LFFMC).
  - apply ISF_mixed_every; [|apply ISF_2_every].
    unfold Slope.ISF_2. rewrite pass_length.
    apply (ISF_1_length FUELTYPE FFMC GS FMC SFC PC PDF CC CBH n LFFMC).
Qed.

Lemma ISF_every :
  JS.at_ (Slope.ISF FUELTYPE FFMC GS FMC SFC PC PDF CC CBH ISI) i
  = SlopeEl.isf o.
Proof.
  unfold Slope.ISF, SlopeEl.isf; cbn [s_fuel s_cc s_pdf slope_obs].
  rewrite at_imap by now rewrite ISF_4_length.
  rewrite ISF_4_every, RSF_every.
  unfold Slope.CF. rewrite at_imap_s by now rewrite LFUEL.
  destruct (String.eqb (JS.sat FUELTYPE i) "O1A"
            || String.eqb (JS.sat FUELTYPE i) "O1B"); reflexivity.
Qed.

Lemma adjustedWSE_every :
  JS.at_ (Slope.adjustedWSE FUELTYPE FFMC GS FMC SFC PC PDF CC CBH ISI) i
  = SlopeEl.adjusted o.
Proof.
  assert (Hi' : (i < List.length FFMC)%nat) by now rewrite LFFMC.
  rewrite (adjustedWSE_at FUELTYPE FFMC GS FMC SFC PC PDF CC CBH ISI i Hi').
  rewrite (WSE_at FUELTYPE FFMC GS FMC SFC PC PDF CC CBH ISI i Hi').
  rewrite ISF_every, (fF_at FFMC i Hi'). reflexivity.
Qed.

Lemma WSV_every :
  JS.at_ (Slope.WSV_v FUELTYPE FFMC WS WAZ GS SAZ FMC SFC PC PDF CC CBH ISI) i
  = SlopeEl.wsv o.
Proof.
  rewrite (WSV_at FUELTYPE FFMC WS WAZ GS SAZ FMC SFC PC PDF CC CBH ISI n i Hi
             LWS). cbv zeta.
  rewrite (WSX_at FUELTYPE FFMC WS WAZ GS SAZ FMC SFC PC PDF CC CBH ISI n i Hi
             LWS).
  rewrite (WSY_at FUELTYPE FFMC WS WAZ GS SAZ FMC SFC PC PDF CC CBH ISI n i Hi
             LWS).
  rewrite adjustedWSE_every. reflexivity.
Qed.

Lemma adjustedRAZ_every :
  JS.at_ (Slope.adjustedRAZ FUELTYPE FFMC WS WAZ GS SAZ FMC SFC PC PDF CC CBH
            ISI) i
  = SlopeEl.adjustedRaz o.
Proof.
  assert (LX : List.length
                 (Slope.WSX FUELTYPE FFMC WS WAZ GS SAZ FMC SFC PC PDF CC CBH
                    ISI) = n)
    by (unfold Slope.WSX; now rewrite imap_length).
  unfold Slope.adjustedRAZ. rewrite at_imap by now rewrite LX.
  unfold Slope.RAZ_v.
  rewrite at_imap by (unfold Slope.WSV_v; now rewrite imap_length, LX).
  rewrite WSV_every.
  rewrite (WSX_at FUELTYPE FFMC WS WAZ GS SAZ FMC SFC PC PDF CC CBH ISI n i Hi
             LWS).
  rewrite (WSY_at FUELTYPE FFMC WS WAZ GS SAZ FMC SFC PC PDF CC CBH ISI n i Hi
             LWS).
  rewrite adjustedWSE_every. reflexivity.
Qed.

(** In a batch that holds no non-fuel and no water observation, the result at
    an index is computed from the observation at that index alone. *)
Lemma slopeAdjustment_at (dflt : SlopeAdjustmentResult) :
  ~ In "NF" FUELTYPE -> ~ In "WA" FUELTYPE ->
  nth i (slopeAdjustment FUELTYPE FFMC BUI WS WAZ GS SAZ FMC SFC PC PDF CC
           CBH ISI) dflt
  = SlopeEl.result o.
Proof.
  intros H1 H2.
  rewrite slopeAdjustment_fuel by (trivial; now rewrite LFFMC).
  rewrite WSV_every, adjustedRAZ_every. reflexivity.
Qed.

End SlopeEvery.

(** Two batches without non-fuel and water observations that hold the same
    observation at an index give the same result there, whatever their other
    observations are. *)
Lemma slopeAdjustment_independent
    (n i : nat) (dflt : SlopeAdjustmentResult)
    (FUELTYPE FUELTYPE' : list string)
    (FFMC BUI WS WAZ GS SAZ FMC SFC PC PDF CC CBH ISI : list R)
    (FFMC' BUI' WS' WAZ' GS' SAZ' FMC' SFC' PC' PDF' CC' CBH' ISI' : list R) :
  (i < n)%nat ->
  slope_wf n FUELTYPE FFMC BUI WS WAZ GS SAZ FMC SFC PC PDF CC CBH ISI ->
  slope_wf n FUELTYPE' FFMC' BUI' WS' WAZ' GS' SAZ' FMC' SFC' PC' PDF' CC'
    CBH' ISI' ->
  ~ In "NF" FUELTYPE -> ~ In "WA" FUELTYPE ->
  ~ In "NF" FUELTYPE' -> ~ In "WA" FUELTYPE' ->
  slope_obs FUELTYPE FFMC WS WAZ GS SAZ FMC SFC PC PDF CC CBH i
  = slope_obs FUELTYPE' FFMC' WS' WAZ' GS' SAZ' FMC' SFC' PC' PDF' CC' CBH' i ->
  nth i (slopeAdjustment FUELTYPE FFMC BUI WS WAZ GS SAZ FMC SFC PC PDF CC
           CBH ISI) dflt
  = nth i (slopeAdjustment FUELTYPE' FFMC' BUI' WS' WAZ' GS' SAZ' FMC' SFC'
             PC' PDF' CC' CBH' ISI') dflt.
Proof.
  intros Hi W W' H1 H2 H1' H2' E.
  rewrite (slopeAdjustment_at _ _ _ _ _ _ _ _ _ _ _ _ _ _ n i Hi W dflt H1 H2).
  rewrite (slopeAdjustment_at _ _ _ _ _ _ _ _ _ _ _ _ _ _ n i Hi W' dflt H1'
             H2').
  now rewrite E.
Qed.
